(** * Address normalisation: a shallow embedding of [soln.py]

    The program reads address records from three kinds of files (an XML
    tree, a tab separated table with a header, a plain text file made of
    blocks), turns each entry into a dictionary with the keys [name],
    [organization], [street], [county], [city], [state], [zip] and
    [country], concatenates the records of all files and sorts them by
    [zip].

    Conventions of the embedding.
    - A Python [str] is a [string]; a character is a code point below 256.
    - A Python value stored in a dictionary is a [pyval]: [None] or a [str].
    - A dictionary with string keys is a [gmap string pyval].
    - An exception is a value of [exn]; a computation that may raise is a
      [result].
    - The libraries the program calls are taken at their interface:
      [ET.parse] yields an [Element] tree, [csv.reader] yields the rows of
      the table as lists of cells, [file.read] yields the text,
      [parser.parse_args] ends the run or yields the files, and writing
      [output.json] succeeds or raises. *)

From Stdlib Require Import Ascii String.
From stdpp Require Import base option list sorting strings gmap.

Local Open Scope string_scope.
Local Open Scope list_scope.

(** ** Exceptions and results *)

Inductive exn : Type :=
  | KeyError (k : string)
  | AttributeError
  | IndexError
  | TypeError
  | OSError.

Inductive result (A : Type) : Type :=
  | Ok (a : A)
  | Raise (e : exn).
Arguments Ok {A} a.
Arguments Raise {A} e.

Global Instance result_ret : MRet result := fun _ a => Ok a.
Global Instance result_bind : MBind result := fun _ _ f m =>
  match m with
  | Ok a => f a
  | Raise e => Raise e
  end.

Definition is_ok {A} (m : result A) : bool :=
  match m with Ok _ => true | Raise _ => false end.

(** [for x in l: acc.append(f x)], stopping at the first exception. *)
Fixpoint for_each {A B} (f : A -> result B) (l : list A) : result (list B) :=
  match l with
  | [] => Ok []
  | x :: l' => y ← f x; ys ← for_each f l'; Ok (y :: ys)
  end.

(** ** Python values *)

Inductive pyval : Type :=
  | PyNone
  | PyStr (s : string).

Global Instance pyval_eq_dec : EqDecision pyval.
Proof. solve_decision. Defined.

(** Truth value of [None] or a [str]: only a non-empty string is true. *)
Definition truthy (v : pyval) : bool :=
  match v with
  | PyStr (String _ _) => true
  | _ => false
  end.

Definition nonempty (s : string) : bool :=
  match s with
  | "" => false
  | String _ _ => true
  end.

(** ** String methods *)

(** [str.isspace] on one character (code points below 256): the ASCII
    controls 9..13 and 28..31, the space, NEL (133) and NBSP (160). *)
Definition isspace (c : ascii) : bool :=
  let n := nat_of_ascii c in
  (Nat.leb 9 n && Nat.leb n 13) || (Nat.leb 28 n && Nat.leb n 32)
  || Nat.eqb n 133 || Nat.eqb n 160.

Fixpoint lstrip (s : string) : string :=
  match s with
  | "" => ""
  | String c s' => if isspace c then lstrip s' else s
  end.

Fixpoint rstrip (s : string) : string :=
  match s with
  | "" => ""
  | String c s' =>
      match rstrip s' with
      | "" => if isspace c then "" else String c ""
      | r => String c r
      end
  end.

(** [s.strip()] *)
Definition strip (s : string) : string := rstrip (lstrip s).

(** [s.startswith(p)] *)
Definition startswith (p s : string) : bool := String.prefix p s.

(** [sub in s] *)
Fixpoint contains (sub s : string) : bool :=
  match s with
  | "" => startswith sub ""
  | String _ s' => startswith sub s || contains sub s'
  end.

(** [s.endswith(suf)] *)
Fixpoint endswith (suf s : string) : bool :=
  match s with
  | "" => String.eqb suf ""
  | String _ s' => String.eqb suf s || endswith suf s'
  end.

(** [s.split(sep)] for a non-empty [sep]: scan from the left, cut at each
    occurrence of [sep] and go on after it.  [skip] counts the characters
    of an occurrence still to be passed over, [cur] is the piece being
    collected. *)
Fixpoint split_go (sep : string) (skip : nat) (cur : string) (s : string)
  : list string :=
  match s with
  | "" => [cur]
  | String c s' =>
      match skip with
      | S k => split_go sep k cur s'
      | O =>
          if startswith sep s
          then cur :: split_go sep (String.length sep - 1) "" s'
          else split_go sep 0 (cur +:+ String c "") s'
      end
  end.

Definition split (sep s : string) : list string := split_go sep 0 "" s.

(** [s.replace(old, new)] for a non-empty [old]. *)
Fixpoint replace_go (old new : string) (skip : nat) (s : string) : string :=
  match s with
  | "" => ""
  | String c s' =>
      match skip with
      | S k => replace_go old new k s'
      | O =>
          if startswith old s
          then new +:+ replace_go old new (String.length old - 1) s'
          else String c (replace_go old new 0 s')
      end
  end.

Definition replace (old new s : string) : string := replace_go old new 0 s.

(** [sep.join(l)] *)
Definition join (sep : string) (l : list string) : string := String.concat sep l.
Global Arguments join : simpl never.

(** [l[i]] on a list *)
Definition getitem_list {A} (l : list A) (i : nat) : result A :=
  match l !! i with
  | Some x => Ok x
  | None => Raise IndexError
  end.

(** [d[k]] on a dictionary *)
Definition getitem (d : gmap string pyval) (k : string) : result pyval :=
  match d !! k with
  | Some v => Ok v
  | None => Raise (KeyError k)
  end.

(** [d.get(k)] *)
Definition get (d : gmap string pyval) (k : string) : pyval :=
  default PyNone (d !! k).

(** [v.strip()] on a value that may be [None] *)
Definition strip_val (v : pyval) : result string :=
  match v with
  | PyStr s => Ok (strip s)
  | PyNone => Raise AttributeError
  end.

(** ** Canonical records *)

(** A canonical address record: the dictionary [address] of each parser. *)
Abbreviation record := (gmap string pyval).

(** ** The markup parser, [parse_xml] *)

#[local] Set Warnings "-register-all".

(** An element of [xml.etree.ElementTree]: its tag, its [text] ([None]
    when the element has no text before its first child) and its
    children in document order. *)
Inductive Element : Type :=
  | Elem (tag : string) (text : option string) (children : list Element).

Definition tag (e : Element) : string :=
  match e with Elem t _ _ => t end.
Definition text (e : Element) : pyval :=
  match e with Elem _ (Some s) _ => PyStr s | Elem _ None _ => PyNone end.
Definition children (e : Element) : list Element :=
  match e with Elem _ _ cs => cs end.

(** [e.iter()]: the element and all its descendants, in document order. *)
Fixpoint iter (e : Element) : list Element :=
  match e with
  | Elem _ _ cs => e :: flat_map iter cs
  end.

(** [e.findall('.//T')]: the descendants of [e] (not [e] itself) whose tag
    is [T], in document order. *)
Definition findall_descendants (t : string) (e : Element) : list Element :=
  filter (fun d => tag d = t) (flat_map iter (children e)).

(** [e.find('T')]: the first child of [e] whose tag is [T], or [None]. *)
Definition find (t : string) (e : Element) : option Element :=
  List.find (fun c => String.eqb (tag c) t) (children e).

(** [x.text] where [x] is the result of [find]: [None] has no attribute
    [text]. *)
Definition text_of (x : option Element) : result pyval :=
  match x with
  | Some c => Ok (text c)
  | None => Raise AttributeError
  end.

(** [ent.find(T).text.strip()] *)
Definition find_text_strip (t : string) (ent : Element) : result string :=
  v ← text_of (find t ent); strip_val v.

(** [ent.find(T).text.strip() if ent.find(T).text else dflt] *)
Definition find_text_strip_or (t : string) (dflt : string) (ent : Element)
  : result string :=
  v ← text_of (find t ent);
  if truthy v then strip_val v else Ok dflt.

(** One step of the list comprehension over [STREET_2], [STREET_3]. *)
Definition extra_street (t : string) (ent : Element) : result (list string) :=
  match find t ent with
  | None => Ok []
  | Some c =>
      s ← strip_val (text c);
      if nonempty s then (s' ← strip_val (text c); Ok [s']) else Ok []
  end.

(** The body of the loop of [parse_xml] for one [ENT] element. *)
Definition parse_ent (ent : Element) : result record :=
  let address : record := ∅ in
  name ← find_text_strip_or "NAME" "" ent;
  company ← find_text_strip_or "COMPANY" "" ent;
  let address :=
    if nonempty name then <["name" := PyStr (strip name)]> address
    else if nonempty company then <["organization" := PyStr company]> address
    else address in
  s2 ← extra_street "STREET_2" ent;
  s3 ← extra_street "STREET_3" ent;
  let streets := s2 ++ s3 in
  s1 ← find_text_strip "STREET" ent;
  let full_street := join " " ([s1] ++ streets) in
  let address := <["street" := PyStr full_street]> address in
  city ← find_text_strip "CITY" ent;
  let address := <["city" := PyStr city]> address in
  state ← find_text_strip "STATE" ent;
  let address := <["state" := PyStr state]> address in
  postal_code ← find_text_strip "POSTAL_CODE" ent;
  z ← getitem_list (split " -" postal_code) 0;
  let address := <["zip" := PyStr z]> address in
  cv ← text_of (find "COUNTRY" ent);
  country ← (if truthy cv then s ← strip_val cv; Ok (PyStr s) else Ok PyNone);
  let address :=
    if truthy country then <["country" := country]> address else address in
  Ok address.

(** [parse_xml], given the root that [ET.parse(file_path).getroot()] returns. *)
Definition parse_xml (root : Element) : result (list record) :=
  for_each parse_ent (findall_descendants "ENT" root).

(** ** The tabular parser, [parse_tsv] *)

(** The dictionary [csv.DictReader] builds for a row: [dict(zip(fieldnames,
    row))], then [None] for the field names the row is too short for.  (The
    cells a row has beyond the header go under the key [None], which no
    string key reads.) *)
Definition dict_row (fieldnames row : list string) : gmap string pyval :=
  let d := foldl (fun d kv => <[kv.1 := PyStr kv.2]> d) ∅ (zip fieldnames row) in
  foldl (fun d k => <[k := PyNone]> d) d (drop (length row) fieldnames).

(** The rows [csv.DictReader] iterates over, given the rows of
    [csv.reader]: the first row is the header, empty rows are skipped. *)
Definition dict_reader (rows : list (list string)) : list (gmap string pyval) :=
  match rows with
  | [] => []
  | fieldnames :: data =>
      dict_row fieldnames <$> filter (fun r => r <> []) data
  end.

(** The body of the loop of [parse_tsv] for one row. *)
Definition parse_tsv_row (row : gmap string pyval) : result record :=
  let address : record := ∅ in
  org ← getitem row "organization";
  address ←
    (if decide (org <> PyStr "N/A")
     then o ← getitem row "organization"; Ok (<["organization" := o]> address)
     else
       f ← getitem row "first";
       m ← getitem row "middle";
       l ← getitem row "last";
       name_parts ← for_each strip_val [f; m; l];
       Ok (<["name" := PyStr (join " " (List.filter nonempty name_parts))]> address));
  a ← getitem row "address";
  street ← strip_val a;
  let address := <["street" := PyStr street]> address in
  address ←
    (if decide (get row "county" <> PyStr "")
     then c ← getitem row "county"; county ← strip_val c;
          Ok (<["county" := PyStr county]> address)
     else Ok address);
  c ← getitem row "city";
  city ← strip_val c;
  let address := <["city" := PyStr city]> address in
  s ← getitem row "state";
  state ← strip_val s;
  let address := <["state" := PyStr state]> address in
  z4 ← getitem row "zip4";
  z ←
    (if truthy z4
     then z ← getitem row "zip"; zs ← strip_val z;
          z4' ← getitem row "zip4"; z4s ← strip_val z4';
          Ok (zs +:+ "-" +:+ z4s)
     else z ← getitem row "zip"; strip_val z);
  let address := <["zip" := PyStr z]> address in
  Ok address.

(** [parse_tsv], given the rows [csv.reader(file, delimiter=TAB)] yields. *)
Definition parse_tsv (rows : list (list string)) : result (list record) :=
  for_each parse_tsv_row (dict_reader rows).

(** ** The block-text parser, [parse_txt] *)

Definition NL : string := String "010" "".

(** The body of the loop of [parse_txt] for one block. *)
Definition parse_block (block : string) : result record :=
  let lines := split NL block in
  let address : record := ∅ in
  name_line ← getitem_list lines 0;
  let address :=
    if contains "," name_line
    then <["name" := PyStr (replace "," "" name_line)]> address
    else <["name" := PyStr (strip name_line)]> address in
  l1 ← getitem_list lines 1;
  let address := <["street" := PyStr (strip l1)]> address in
  l2 ← getitem_list lines 2;
  '(address, city_state_zip) ←
    (if contains "COUNTY" l2
     then l2' ← getitem_list lines 2;
          let address := <["county" := PyStr (strip (replace "COUNTY" "" l2'))]> address in
          l3 ← getitem_list lines 3;
          Ok (address, split "," l3)
     else l2' ← getitem_list lines 2;
          Ok (address, split "," l2'));
  c ← getitem_list city_state_zip 0;
  let address := <["city" := PyStr (strip c)]> address in
  sz ← getitem_list city_state_zip 1;
  let state_zip := split " " (strip sz) in
  st ← getitem_list state_zip 0;
  let address := <["state" := PyStr (strip st)]> address in
  z ← getitem_list state_zip 1;
  let address := <["zip" := PyStr (strip z)]> address in
  Ok address.

(** [parse_txt], given the text [file.read()] returns. *)
Definition parse_txt (content : string) : result (list record) :=
  for_each parse_block (split (NL +:+ NL) (strip content)).

(** ** The aggregator, [main] *)

(** What the program's surroundings do.
    - The three readers return for a path the root of the parsed document,
      the rows of the table, the text of the file; or the exception they
      raise.
    - [parser.parse_args(args)] either ends the run itself with a status
      ([inl]: 0 after [-h], 2 after an error such as no file or an unknown
      option), or returns [args.files] ([inr]).  The files it returns are
      arguments of the run.
    - [open('output.json', 'w')] followed by [json.dump] writes the array,
      or raises. *)
Record filesystem : Type := {
  et_parse : string -> result Element;
  csv_reader : string -> result (list (list string));
  file_read : string -> result string;
  parse_args : list string -> nat + list string;
  parse_args_files :
    forall args files, parse_args args = inr files -> files ⊆ args;
  write_output : list record -> result unit
}.

(** [a < b] on values: only two strings compare. *)
Definition py_lt (a b : pyval) : result bool :=
  match a, b with
  | PyStr s, PyStr t => Ok (String.ltb s t)
  | _, _ => Raise TypeError
  end.

(** [list.sort(key=key)].  Python guarantees a stable sort that only uses
    [<] on the keys; it is embedded as the stable insertion sort, which
    like Python's raises [TypeError] as soon as two keys that do not
    compare meet. *)
Fixpoint insert_sorted {A} (key : A -> pyval) (x : A) (l : list A)
  : result (list A) :=
  match l with
  | [] => Ok [x]
  | y :: l' =>
      b ← py_lt (key y) (key x);
      if b : bool then r ← insert_sorted key x l'; Ok (y :: r)
      else Ok (x :: y :: l')
  end.

Fixpoint list_sort {A} (key : A -> pyval) (l : list A) : result (list A) :=
  match l with
  | [] => Ok []
  | x :: l' => s ← list_sort key l'; insert_sorted key x s
  end.

(** [lambda x: x.get('zip', '99999')] *)
Definition zip_key (x : record) : pyval :=
  default (PyStr "99999") (x !! "zip").

(** The dispatch on the suffix of the path inside the [try]: the records
    of the file, or [None] for an unsupported suffix (a warning, and the
    loop continues). *)
Definition parse_file (fs : filesystem) (path : string)
  : result (option (list record)) :=
  if endswith ".xml" path then
    root ← et_parse fs path; r ← parse_xml root; Ok (Some r)
  else if endswith ".tsv" path then
    rows ← csv_reader fs path; r ← parse_tsv rows; Ok (Some r)
  else if endswith ".txt" path then
    content ← file_read fs path; r ← parse_txt content; Ok (Some r)
  else Ok None.

(** The loop over [args.files], extending the accumulator [file_paths]. *)
Fixpoint process (fs : filesystem) (paths : list string)
  (file_paths : list record) : result (list record) :=
  match paths with
  | [] => Ok file_paths
  | path :: rest =>
      r ← parse_file fs path;
      process fs rest (file_paths ++ default [] r)
  end.

(** How a run ends: [sys.exit(code)] was called (by [argparse] or by
    [main]), an exception nothing catches ended it (the interpreter then
    prints the traceback; the status of the process is 1 then too), or
    [output.json] was written with the given array. *)
Inductive outcome : Type :=
  | Exit (code : nat)
  | Uncaught (e : exn)
  | Written (out : list record).

(** [main].  [parse_args] may end the run; [if not args.files] ends it
    with status 1; an exception while a file is processed ends it with
    status 1; the sort and the writing of the output are outside the
    [try], so an exception there is not caught. *)
Definition main (fs : filesystem) (args : list string) : outcome :=
  match parse_args fs args with
  | inl code => Exit code
  | inr files =>
      match files with
      | [] => Exit 1
      | _ =>
          match process fs files [] with
          | Raise _ => Exit 1
          | Ok file_paths =>
              match list_sort zip_key file_paths with
              | Raise e => Uncaught e
              | Ok out =>
                  match write_output fs out with
                  | Raise e => Uncaught e
                  | Ok _ => Written out
                  end
              end
          end
      end
  end.

(** ** Predicates the properties are stated with *)

(** Two elements are in order when their keys are strings in lexicographic
    order (the order of [String.compare], by character code). *)
Definition key_le {A} (key : A -> pyval) (x y : A) : Prop :=
  exists s t, key x = PyStr s /\ key y = PyStr t /\ String.le s t.

Definition str_keyed {A} (key : A -> pyval) (x : A) : Prop :=
  exists s, key x = PyStr s.

(** The string a record is ordered by, in the words of the
    specification: its [zip] value, and ["99999"] for a record that lacks
    the [zip] key. *)
Definition sorts_as (r : gmap string pyval) (s : string) : Prop :=
  r !! "zip" = Some (PyStr s) \/ (r !! "zip" = None /\ s = "99999").

Global Instance sorts_as_dec r s : Decision (sorts_as r s).
Proof. unfold sorts_as. apply _. Defined.

(** [x] may come before [y]: the string of [x] is not greater than the
    string of [y], compared lexicographically by character code. *)
Definition zip_ordered (x y : gmap string pyval) : Prop :=
  exists s t, sorts_as x s /\ sorts_as y t /\ String.le s t.

(** The key [k] is present in the record. *)
Definition has_key (k : string) (r : record) : Prop := is_Some (r !! k).

(** Exactly one of [name] and [organization] is present. *)
Definition exactly_one_identity (r : record) : Prop :=
  (has_key "name" r /\ r !! "organization" = None) \/
  (r !! "name" = None /\ has_key "organization" r).

(** The entity has a child [t] whose [text] is [v]. *)
Definition child_text (t : string) (ent : Element) (v : pyval) : Prop :=
  exists c, find t ent = Some c /\ text c = v.

(** A text that is empty after trimming: no text, or only white space. *)
Definition blank (v : pyval) : Prop :=
  match v with
  | PyNone => True
  | PyStr s => strip s = ""
  end.

(** The child [t] is there and has a text. *)
Definition has_text (t : string) (ent : Element) : Prop :=
  exists s, child_text t ent (PyStr s).

(** The children [parse_xml] reads besides [NAME] and [COMPANY] are as it
    needs them: [STREET], [CITY], [STATE] and [POSTAL_CODE] with a text,
    [COUNTRY] present, [STREET_2] and [STREET_3] absent or with a text. *)
Definition rest_well_formed (ent : Element) : Prop :=
  has_text "STREET" ent /\ has_text "CITY" ent /\ has_text "STATE" ent /\
  has_text "POSTAL_CODE" ent /\ is_Some (find "COUNTRY" ent) /\
  (find "STREET_2" ent = None \/ has_text "STREET_2" ent) /\
  (find "STREET_3" ent = None \/ has_text "STREET_3" ent).

(** No leading and no trailing white space. *)
Definition trimmed (s : string) : Prop := strip s = s.

(** The line of a block that [parse_txt] reads city, state and zip from:
    the fourth line when the third contains [COUNTY], else the third. *)
Definition city_state_zip_line (block : string) : option string :=
  let lines := split NL block in
  l2 ← lines !! 2;
  if contains "COUNTY" l2 then lines !! 3 else Some l2.

(** The white-space delimited tokens of a string (what [s.split()] without
    a separator returns): the maximal runs of characters that are not
    white space. *)
Fixpoint tokens_go (cur : string) (s : string) : list string :=
  match s with
  | "" => if nonempty cur then [cur] else []
  | String c s' =>
      if isspace c
      then (if nonempty cur then cur :: tokens_go "" s' else tokens_go "" s')
      else tokens_go (cur +:+ String c "") s'
  end.

Definition whitespace_tokens (s : string) : list string := tokens_go "" s.

(** The keys every record has, and the keys a record may have. *)
Definition required_keys : list string := ["street"; "city"; "state"; "zip"].
Definition canonical_keys : list string :=
  ["name"; "organization"; "street"; "county"; "city"; "state"; "zip"; "country"].

(** What the child [t] of an entity adds to the street: its trimmed text
    when the child is there and that text is not empty. *)
Definition extra_line (t : string) (ent : Element) : list string :=
  match find t ent with
  | Some c =>
      match text c with
      | PyStr s => if nonempty (strip s) then [strip s] else []
      | PyNone => []
      end
  | None => []
  end.

(** The column [k] of the row holds a string. *)
Definition str_column (row : gmap string pyval) (k : string) : Prop :=
  exists s, row !! k = Some (PyStr s).

(** The row has what [parse_tsv] reads: an [organization]; when that is
    the sentinel, the three name columns as strings; [address], [county],
    [city], [state] and [zip] as strings; and a [zip4]. *)
Definition row_well_formed (row : gmap string pyval) : Prop :=
  is_Some (row !! "organization") /\
  (row !! "organization" = Some (PyStr "N/A") ->
   str_column row "first" /\ str_column row "middle" /\ str_column row "last") /\
  str_column row "address" /\ str_column row "county" /\
  str_column row "city" /\ str_column row "state" /\
  str_column row "zip" /\ is_Some (row !! "zip4").

(** ** Sample inputs *)

Definition leaf (t s : string) : Element := Elem t (Some s) [].

Definition sample_ent : Element :=
  Elem "ENT" None
    [leaf "NAME" " Ann Lee "; Elem "COMPANY" None []; leaf "STREET" "1 Main St";
     leaf "STREET_2" "Apt 2"; leaf "CITY" "Atlanta"; leaf "STATE" "GA";
     leaf "POSTAL_CODE" "30301 -1234"; leaf "COUNTRY" "US"].

(** [NAME] holds white space only, [COMPANY] has no text. *)
Definition blank_ent : Element :=
  Elem "ENT" None
    [leaf "NAME" "  "; Elem "COMPANY" None []; leaf "STREET" "9 Elm St";
     leaf "CITY" "Reno"; leaf "STATE" "NV"; leaf "POSTAL_CODE" "89501";
     Elem "COUNTRY" None []].

(** A well-formed entity but for the [COUNTRY] child, which is absent. *)
Definition no_country_ent : Element :=
  Elem "ENT" None
    [leaf "NAME" "Ann Lee"; Elem "COMPANY" None []; leaf "STREET" "1 Main St";
     leaf "CITY" "Atlanta"; leaf "STATE" "GA"; leaf "POSTAL_CODE" "30301"].

Definition sample_root : Element := Elem "EXPORT" None [Elem "ENTITY" None [sample_ent]].
Definition blank_root : Element := Elem "EXPORT" None [Elem "ENTITY" None [blank_ent]].

Definition sample_header : list string :=
  ["first"; "middle"; "last"; "organization"; "address"; "city"; "state";
   "county"; "zip"; "zip4"].

Definition sample_rows : list (list string) :=
  [sample_header;
   ["Bo"; ""; "Diaz "; "N/A"; "2 Oak Ave"; "New York"; "NY"; ""; "10001"; "0001"];
   [];
   [""; ""; ""; " Acme "; "3 Pine Rd"; "San Francisco"; "CA"; "MARIN"; " 94105"; ""]].

(** The same table without the [county] column. *)
Definition no_county_rows : list (list string) :=
  [["first"; "middle"; "last"; "organization"; "address"; "city"; "state"; "zip"; "zip4"];
   [];
   ["Bo"; ""; "Diaz"; "N/A"; "2 Oak Ave"; "New York"; "NY"; "10001"; "0001"]].

Definition sample_text : string :=
  "Doe, John " +:+ NL +:+ "4 Hill St" +:+ NL +:+ "Beverly Hills, CA 90210" +:+ NL
  +:+ NL +:+
  "Cy Young" +:+ NL +:+ "5 Lake Dr" +:+ NL +:+ "FULTON COUNTY" +:+ NL
  +:+ "Atlanta, GA 30301" +:+ NL.

(** A block with two spaces between the state and the zip code. *)
Definition two_space_block : string :=
  "Cy Young" +:+ NL +:+ "5 Lake Dr" +:+ NL +:+ "Atlanta, GA  30301".

(** [parse_args] in the samples.  Without arguments [argparse] reports
    the missing [FILE] (status 2); [-h] or [--help] in the first place
    prints the help (status 0); arguments none of which starts with [-]
    are all files.  The samples use no other argument list; this table
    gives the others status 2, as [argparse] does for an unknown option. *)
Definition sample_parse_args (args : list string) : nat + list string :=
  match args with
  | [] => inl 2
  | a :: _ =>
      if String.eqb a "-h" || String.eqb a "--help" then inl 0
      else if forallb (fun a => negb (startswith "-" a)) args then inr args
      else inl 2
  end.

Lemma sample_parse_args_files args files :
  sample_parse_args args = inr files -> files ⊆ args.
Proof.
  unfold sample_parse_args. destruct args as [|a args]; [done|].
  destruct (_ || _); [done|]. destruct (forallb _ _); [|done]. by intros [= <-].
Qed.

Definition sample_et_parse (p : string) : result Element :=
  if String.eqb p "a.xml" then Ok sample_root
  else if String.eqb p "blank.xml" then Ok blank_root
  else Raise OSError.

Definition sample_csv_reader (p : string) : result (list (list string)) :=
  if String.eqb p "b.tsv" then Ok sample_rows
  else if String.eqb p "no_county.tsv" then Ok no_county_rows
  else Raise OSError.

Definition sample_file_read (p : string) : result string :=
  if String.eqb p "c.txt" then Ok sample_text
  else if String.eqb p "empty.txt" then Ok ""
  else Raise OSError.

Definition sample_fs : filesystem := {|
  et_parse := sample_et_parse;
  csv_reader := sample_csv_reader;
  file_read := sample_file_read;
  parse_args := sample_parse_args;
  parse_args_files := sample_parse_args_files;
  write_output _ := Ok tt
|}.

(** The same surroundings, but [output.json] cannot be written. *)
Definition readonly_fs : filesystem := {|
  et_parse := sample_et_parse;
  csv_reader := sample_csv_reader;
  file_read := sample_file_read;
  parse_args := sample_parse_args;
  parse_args_files := sample_parse_args_files;
  write_output _ := Raise OSError
|}.

(** The records the sample files give. *)
Definition ann_record : record :=
  list_to_map [("name", PyStr "Ann Lee"); ("street", PyStr "1 Main St Apt 2");
    ("city", PyStr "Atlanta"); ("state", PyStr "GA"); ("zip", PyStr "30301");
    ("country", PyStr "US")].
Definition blank_record : record :=
  list_to_map [("street", PyStr "9 Elm St"); ("city", PyStr "Reno");
    ("state", PyStr "NV"); ("zip", PyStr "89501")].
Definition bo_record : record :=
  list_to_map [("name", PyStr "Bo Diaz"); ("street", PyStr "2 Oak Ave");
    ("city", PyStr "New York"); ("state", PyStr "NY"); ("zip", PyStr "10001-0001")].
Definition acme_record : record :=
  list_to_map [("organization", PyStr " Acme "); ("street", PyStr "3 Pine Rd");
    ("county", PyStr "MARIN"); ("city", PyStr "San Francisco");
    ("state", PyStr "CA"); ("zip", PyStr "94105")].
Definition doe_record : record :=
  list_to_map [("name", PyStr "Doe John "); ("street", PyStr "4 Hill St");
    ("city", PyStr "Beverly Hills"); ("state", PyStr "CA"); ("zip", PyStr "90210")].
Definition cy_record : record :=
  list_to_map [("name", PyStr "Cy Young"); ("street", PyStr "5 Lake Dr");
    ("county", PyStr "FULTON"); ("city", PyStr "Atlanta"); ("state", PyStr "GA");
    ("zip", PyStr "30301")].
Definition two_space_record : record :=
  list_to_map [("name", PyStr "Cy Young"); ("street", PyStr "5 Lake Dr");
    ("city", PyStr "Atlanta"); ("state", PyStr "GA"); ("zip", PyStr "")].

Definition sample_args : list string := ["a.xml"; "b.tsv"; "c.txt"; "d.csv"].

Definition sample_per_file : list (option (list record)) :=
  [Some [ann_record]; Some [bo_record; acme_record];
   Some [doe_record; cy_record]; None].

Definition sample_sorted : list record :=
  [bo_record; ann_record; cy_record; doe_record; acme_record].

(** [NAME] holds white space only, [COMPANY] a text. *)
Definition company_ent : Element :=
  Elem "ENT" None
    [leaf "NAME" " "; leaf "COMPANY" " Acme Inc "; leaf "STREET" "1 Main St";
     leaf "CITY" "Atlanta"; leaf "STATE" "GA"; leaf "POSTAL_CODE" "30301";
     leaf "COUNTRY" ""].
Definition company_record : record :=
  list_to_map [("organization", PyStr "Acme Inc"); ("street", PyStr "1 Main St");
    ("city", PyStr "Atlanta"); ("state", PyStr "GA"); ("zip", PyStr "30301")].

(** * Properties *)

Ltac inv_result :=
  repeat match goal with
  | H : Ok _ = Ok _ |- _ => injection H as H
  | H : Raise _ = Ok _ |- _ => discriminate H
  | H : mbind _ ?m = Ok _ |- _ =>
      let E := fresh "E" in destruct m eqn:E; simpl in H
  | H : match ?m with Ok _ => _ | Raise _ => _ end = Ok _ |- _ =>
      let E := fresh "E" in destruct m eqn:E; simpl in H
  | H : (if ?b then _ else _) = Ok _ |- _ =>
      let E := fresh "E" in destruct b eqn:E; simpl in H
  | H : (let '(_, _) := ?p in _) = Ok _ |- _ => destruct p; simpl in H
  end.

(** ** Results *)

Lemma bind_Ok {A B} (m : result A) (f : A -> result B) (b : B) :
  m ≫= f = Ok b -> exists a, m = Ok a /\ f a = Ok b.
Proof. destruct m as [a|e]; simpl; [eauto | discriminate]. Qed.

Lemma for_each_Ok_elem {A B} (f : A -> result B) l ys y :
  for_each f l = Ok ys -> y ∈ ys -> exists x, x ∈ l /\ f x = Ok y.
Proof.
  revert ys. induction l as [|x l IH]; simpl; intros ys H Hy.
  - injection H as <-. by apply elem_of_nil in Hy.
  - destruct (f x) as [y0|] eqn:Hx; simpl in H; [|discriminate].
    destruct (for_each f l) as [ys0|] eqn:Hl; simpl in H; [|discriminate].
    injection H as <-. apply elem_of_cons in Hy as [->|Hy].
    + exists x. split; [left | done].
    + destruct (IH ys0 eq_refl Hy) as (x' & ? & ?). exists x'. split; [by right | done].
Qed.

Lemma for_each_Forall {A B} (f : A -> result B) (P : B -> Prop) l ys :
  (forall x y, f x = Ok y -> P y) -> for_each f l = Ok ys -> Forall P ys.
Proof.
  intros Hf H. apply Forall_forall. intros y Hy.
  destruct (for_each_Ok_elem f l ys y H Hy) as (x & _ & Hx). eauto.
Qed.

Lemma for_each_Raise {A B} (f : A -> result B) l x :
  x ∈ l -> is_ok (f x) = false -> is_ok (for_each f l) = false.
Proof.
  induction l as [|x0 l IH]; intros Hx Hf.
  - by apply elem_of_nil in Hx.
  - simpl. destruct (f x0) as [y0|] eqn:Hx0; simpl; [|done].
    apply elem_of_cons in Hx as [->|Hx]; [by rewrite Hx0 in Hf|].
    specialize (IH Hx Hf). by destruct (for_each f l).
Qed.

(** ** The sort *)

Section sorting.
Context {A : Type} (key : A -> pyval).

Lemma py_lt_Ok a b c :
  py_lt a b = Ok c -> exists s t, a = PyStr s /\ b = PyStr t /\ c = String.ltb s t.
Proof.
  destruct a as [|s], b as [|t]; simpl; try discriminate.
  intros [= <-]. eauto.
Qed.

Lemma ltb_true_le s t : String.ltb s t = true -> String.le s t.
Proof.
  unfold String.le, String.ltb, String.leb.
  by destruct (String.compare s t).
Qed.

Lemma ltb_false_le s t : String.ltb s t = false -> String.le t s.
Proof.
  unfold String.le, String.ltb, String.leb. rewrite (String.compare_antisym t s).
  by destruct (String.compare s t).
Qed.

Lemma ltb_true_ne s t : String.ltb s t = true -> s <> t.
Proof.
  intros H ->. apply ltb_true_le in H as H'.
  unfold String.ltb in H.
  assert (String.compare t t = Eq) as Ht.
  { clear. induction t as [|c t IH]; simpl; [done|].
    unfold Ascii.compare. by rewrite N.compare_refl. }
  by rewrite Ht in H.
Qed.

Lemma key_le_trans x y z :
  key_le key x y -> key_le key y z -> key_le key x z.
Proof.
  intros (s & t & Hx & Hy & Hst) (t' & u & Hy' & Hz & Htu).
  rewrite Hy in Hy'. injection Hy' as <-.
  exists s, u. split_and!; [done..|]. by etrans.
Qed.

Lemma insert_sorted_perm x l r :
  insert_sorted key x l = Ok r -> r ≡ₚ x :: l.
Proof.
  revert r. induction l as [|y l IH]; simpl; intros r H.
  - by injection H as <-.
  - destruct (py_lt (key y) (key x)) as [[]|]; simpl in H; [| |discriminate].
    + destruct (insert_sorted key x l) as [r'|]; simpl in H; [|discriminate].
      injection H as <-. rewrite (IH r' eq_refl). apply Permutation_swap.
    + by injection H as <-.
Qed.

Lemma insert_sorted_stable x l r k :
  insert_sorted key x l = Ok r ->
  filter (fun a => key a = k) r = filter (fun a => key a = k) (x :: l).
Proof.
  revert r. induction l as [|y l IH]; simpl; intros r H.
  - by injection H as <-.
  - destruct (py_lt (key y) (key x)) as [[]|] eqn:Hlt; simpl in H; [| |discriminate].
    + destruct (insert_sorted key x l) as [r'|]; simpl in H; [|discriminate].
      injection H as <-.
      apply py_lt_Ok in Hlt as (s & t & Hy & Hx & Hlt). symmetry in Hlt.
      apply ltb_true_ne in Hlt.
      rewrite (filter_cons _ y r'), (IH r' eq_refl), !filter_cons.
      repeat case_decide; congruence.
    + by injection H as <-.
Qed.

Lemma insert_sorted_sorted x l r :
  insert_sorted key x l = Ok r ->
  StronglySorted (key_le key) l -> StronglySorted (key_le key) r.
Proof.
  revert r. induction l as [|y l IH]; simpl; intros r H Hs.
  - injection H as <-. repeat constructor.
  - apply StronglySorted_cons in Hs as [Hy Hs].
    destruct (py_lt (key y) (key x)) as [[]|] eqn:Hlt; simpl in H; [| |discriminate].
    + destruct (insert_sorted key x l) as [r'|] eqn:Hr; simpl in H; [|discriminate].
      injection H as <-.
      apply py_lt_Ok in Hlt as (s & t & Hky & Hkx & Hlt). symmetry in Hlt.
      apply StronglySorted_cons. split; [|by apply IH].
      rewrite (insert_sorted_perm _ _ _ Hr). constructor; [|done].
      exists s, t. split_and!; [done..|]. by apply ltb_true_le.
    + injection H as <-.
      apply py_lt_Ok in Hlt as (s & t & Hky & Hkx & Hlt). symmetry in Hlt.
      assert (key_le key x y) as Hxy.
      { exists t, s. split_and!; [done..|]. by apply ltb_false_le. }
      apply StronglySorted_cons. split; [|by apply StronglySorted_cons].
      constructor; [done|].
      eapply Forall_impl; [exact Hy|]. intros z Hz. by eapply key_le_trans.
Qed.

Lemma insert_sorted_total x l :
  Forall (str_keyed key) (x :: l) -> exists r, insert_sorted key x l = Ok r.
Proof.
  intros H. apply Forall_cons in H as [[t Hx] Hl].
  induction Hl as [|y l [s Hy] Hl IH]; simpl; [eauto|].
  rewrite Hy, Hx. simpl. destruct (String.ltb s t); [|eauto].
  destruct IH as [r ->]. simpl. eauto.
Qed.

Lemma list_sort_perm l r : list_sort key l = Ok r -> r ≡ₚ l.
Proof.
  revert r. induction l as [|x l IH]; simpl; intros r H.
  - by injection H as <-.
  - destruct (list_sort key l) as [s|]; simpl in H; [|discriminate].
    rewrite (insert_sorted_perm _ _ _ H). by rewrite (IH s eq_refl).
Qed.

Lemma list_sort_stable l r k :
  list_sort key l = Ok r ->
  filter (fun a => key a = k) r = filter (fun a => key a = k) l.
Proof.
  revert r. induction l as [|x l IH]; simpl; intros r H.
  - by injection H as <-.
  - destruct (list_sort key l) as [s|]; simpl in H; [|discriminate].
    rewrite (insert_sorted_stable _ _ _ k H), !filter_cons.
    by rewrite (IH s eq_refl).
Qed.

Lemma list_sort_sorted l r :
  list_sort key l = Ok r -> StronglySorted (key_le key) r.
Proof.
  revert r. induction l as [|x l IH]; simpl; intros r H.
  - injection H as <-. constructor.
  - destruct (list_sort key l) as [s|]; simpl in H; [|discriminate].
    eapply insert_sorted_sorted; eauto.
Qed.

Lemma list_sort_total l :
  Forall (str_keyed key) l -> exists r, list_sort key l = Ok r.
Proof.
  induction 1 as [|x l Hx Hl [s Hs]]; simpl; [eauto|].
  rewrite Hs. simpl. apply insert_sorted_total. constructor; [done|].
  by rewrite (list_sort_perm _ _ Hs).
Qed.
End sorting.

(** ** Dictionaries and values *)

Lemma getitem_Ok d k v : getitem d k = Ok v -> d !! k = Some v.
Proof. unfold getitem. destruct (d !! k); [by intros [= ->] | discriminate]. Qed.

Lemma getitem_list_Ok {A} (l : list A) i x : getitem_list l i = Ok x -> l !! i = Some x.
Proof. unfold getitem_list. destruct (l !! i); [by intros [= ->] | discriminate]. Qed.

Lemma strip_val_Ok v s : strip_val v = Ok s -> exists s0, v = PyStr s0 /\ s = strip s0.
Proof. destruct v; simpl; [discriminate|]. intros [= <-]. eauto. Qed.

Lemma truthy_PyStr s : truthy (PyStr s) = nonempty s.
Proof. by destruct s. Qed.

Lemma nonempty_false s : nonempty s = false <-> s = "".
Proof. by destruct s. Qed.

Lemma nonempty_true s : nonempty s = true <-> s <> "".
Proof. by destruct s. Qed.

(** ** The tabular parser *)

Lemma foldl_insert_lookup_None {B} (f : B -> string * pyval) (l : list B)
    (d : gmap string pyval) k :
  d !! k = None -> Forall (fun b => (f b).1 <> k) l ->
  foldl (fun d b => <[(f b).1 := (f b).2]> d) d l !! k = None.
Proof.
  revert d. induction l as [|b l IH]; simpl; intros d Hd Hl; [done|].
  apply Forall_cons in Hl as [Hb Hl]. apply IH; [|done].
  by rewrite lookup_insert_ne.
Qed.

Lemma dict_row_lookup_None fieldnames row k :
  k ∉ fieldnames -> dict_row fieldnames row !! k = None.
Proof.
  intros Hk. unfold dict_row.
  apply (foldl_insert_lookup_None (fun k => (k, PyNone))).
  - apply (foldl_insert_lookup_None (fun kv => (kv.1, PyStr kv.2))); [done|].
    apply Forall_forall. intros [k' v] Hin Heq. simpl in Heq. subst k'.
    apply Hk. by apply elem_of_zip_l in Hin.
  - apply Forall_forall. intros k' Hin Heq. simpl in Heq. subst k'.
    apply Hk. apply list_elem_of_lookup in Hin as [i Hi].
    rewrite lookup_drop in Hi. by eapply list_elem_of_lookup_2.
Qed.

Lemma parse_tsv_row_county row r :
  parse_tsv_row row = Ok r ->
  (r !! "county" = None <-> row !! "county" = Some (PyStr "")).
Proof.
  intros H. unfold parse_tsv_row in H. inv_result; subst; simplify_map_eq;
    unfold get in *;
    repeat match goal with
    | H : getitem _ _ = Ok _ |- _ => apply getitem_Ok in H
    end; simplify_map_eq; try done.
  all: split; try done; intros Heq; simplify_eq.
  all: try match goal with
       | Hn : default _ (?m !! "county") ≠ _, Hc : ?m !! "county" = _ |- _ =>
           exfalso; apply Hn; by rewrite Hc
       | Hn : ¬ default _ (?m !! "county") ≠ _ |- _ =>
           let Hs := fresh in
           pose proof (dec_stable Hn) as Hs; clear -Hs;
           destruct (m !! "county"); simpl in Hs; by simplify_eq
       end.
Qed.

Lemma parse_tsv_row_no_county fieldnames cells :
  "county" ∉ fieldnames ->
  exists e, parse_tsv_row (dict_row fieldnames cells) = Raise e.
Proof.
  intros Hk. pose proof (dict_row_lookup_None fieldnames cells "county" Hk) as Hc.
  destruct (parse_tsv_row (dict_row fieldnames cells)) as [r|e] eqn:H; [|eauto].
  exfalso. unfold parse_tsv_row in H. inv_result.
  all: repeat match goal with
       | H : getitem _ "county" = Ok _ |- _ => apply getitem_Ok in H
       end; try congruence.
  all: match goal with
       | Hn : ¬ get _ "county" ≠ _ |- _ =>
           apply Hn; unfold get; by rewrite Hc
       end.
Qed.

(** ** The aggregator *)

Lemma endswith_cons suf c s :
  endswith suf (String c s) = String.eqb suf (String c s) || endswith suf s.
Proof. reflexivity. Qed.

Lemma endswith_tsv_not_xml path :
  endswith ".tsv" path = true -> endswith ".xml" path = false.
Proof.
  induction path as [|c path IH]; [done|].
  rewrite !endswith_cons. intros [H|H]%orb_true_iff.
  - apply String.eqb_eq in H. injection H as <- <-. reflexivity.
  - rewrite (IH H), orb_false_r. apply String.eqb_neq. intros Hx.
    injection Hx as _ <-. discriminate H.
Qed.

Lemma endswith_txt_not_xml_tsv path :
  endswith ".txt" path = true ->
  endswith ".xml" path = false /\ endswith ".tsv" path = false.
Proof.
  induction path as [|c path IH]; [done|].
  rewrite !endswith_cons. intros [H|H]%orb_true_iff.
  - apply String.eqb_eq in H. injection H as <- <-. split; reflexivity.
  - destruct (IH H) as [-> ->]. rewrite !orb_false_r.
    split; apply String.eqb_neq; intros Hx; injection Hx as _ <-; discriminate H.
Qed.

Lemma process_spec fs paths acc recs :
  process fs paths acc = Ok recs <->
  exists per_file, for_each (parse_file fs) paths = Ok per_file /\
    recs = acc ++ concat (default [] <$> per_file).
Proof.
  revert acc. induction paths as [|path paths IH]; simpl; intros acc.
  - split.
    + intros [= <-]. exists []. by rewrite app_nil_r.
    + intros (pf & [= <-] & ->). by rewrite app_nil_r.
  - destruct (parse_file fs path) as [r|e]; simpl.
    + rewrite IH. split.
      * intros (pf & -> & ->). simpl. exists (r :: pf).
        split; [done|]. by rewrite fmap_cons, concat_cons, app_assoc.
      * intros (pf & Hpf & ->).
        destruct (for_each (parse_file fs) paths) as [pf'|]; simpl in Hpf; [|discriminate].
        injection Hpf as <-. exists pf'.
        split; [done|]. by rewrite fmap_cons, concat_cons, app_assoc.
    + split; [discriminate|]. by intros (pf & [=] & _).
Qed.

Lemma process_Raise fs paths acc path :
  path ∈ paths -> is_ok (parse_file fs path) = false ->
  is_ok (process fs paths acc) = false.
Proof.
  intros Hin Hf. destruct (process fs paths acc) as [recs|] eqn:H; [|done].
  apply process_spec in H as (pf & Hpf & _).
  pose proof (for_each_Raise _ _ _ Hin Hf) as Hr. by rewrite Hpf in Hr.
Qed.

Lemma main_Exit_1 fs args files path :
  parse_args fs args = inr files ->
  path ∈ files -> is_ok (parse_file fs path) = false -> main fs args = Exit 1.
Proof.
  intros Hargs Hin Hf. unfold main. rewrite Hargs.
  destruct files as [|a files]; [done|].
  pose proof (process_Raise fs (a :: files) [] path Hin Hf) as Hr.
  by destruct (process fs (a :: files) []).
Qed.

(** C7.  For every row of the table that parses: when the [zip4] cell is
    not empty, the record's [zip] is the trimmed [zip] cell, a hyphen and
    the trimmed [zip4] cell; when it is empty, the trimmed [zip] cell. *)
Theorem tsv_zip_plus4 (row r : record) (z4 : string) :
  parse_tsv_row row = Ok r ->
  row !! "zip4" = Some (PyStr z4) ->
  exists z, row !! "zip" = Some (PyStr z) /\
    (z4 <> "" -> r !! "zip" = Some (PyStr (strip z +:+ "-" +:+ strip z4))) /\
    (z4 = "" -> r !! "zip" = Some (PyStr (strip z))).
Proof.
  intros H Hz4. unfold parse_tsv_row in H. inv_result; subst.
  all: repeat match goal with
       | H : getitem _ _ = Ok _ |- _ => apply getitem_Ok in H
       end.
  all: repeat match goal with
       | H1 : ?m !! "zip4" = Some _, H2 : ?m !! "zip4" = Some _ |- _ =>
           rewrite H1 in H2; injection H2 as ->
       end.
  all: repeat match goal with
       | H : strip_val (PyStr _) = Ok _ |- _ => simpl in H; injection H as <-
       | H : strip_val ?v = Ok _ |- _ =>
           apply strip_val_Ok in H as (? & -> & ->)
       end.
  all: rewrite ?truthy_PyStr in *.
  all: eexists; split; [eassumption|].
  all: rewrite lookup_insert_eq.
  all: split; intros Hz; try done.
  all: try (subst; discriminate).
  all: match goal with
       | H : nonempty _ = false |- _ => by apply nonempty_false in H
       end.
Qed.

(** ** Strings *)

Lemma app_cons c s t : String c s +:+ t = String c (s +:+ t).
Proof. reflexivity. Qed.

Lemma app_empty_l s : "" +:+ s = s.
Proof. reflexivity. Qed.

Lemma app_empty_r s : s +:+ "" = s.
Proof. induction s as [|c s IH]; [done|]. by rewrite app_cons, IH. Qed.

Lemma app_assoc_str s t u : (s +:+ t) +:+ u = s +:+ t +:+ u.
Proof. induction s as [|c s IH]; [done|]. by rewrite !app_cons, IH. Qed.

Lemma app_length_eq_inv s1 t1 s2 t2 :
  s1 +:+ t1 = s2 +:+ t2 -> String.length s1 = String.length s2 ->
  s1 = s2 /\ t1 = t2.
Proof.
  revert s2. induction s1 as [|c s1 IH]; intros [|c2 s2]; simpl; try done.
  rewrite !app_cons. intros [= -> H] [= Hl]. destruct (IH s2 H Hl) as [-> ->]. done.
Qed.

Lemma startswith_spec p s : startswith p s = true <-> exists b, s = p +:+ b.
Proof.
  unfold startswith. revert p. induction s as [|c s IH]; intros [|d p]; simpl.
  - split; [by exists ""|done].
  - split; [done|]. intros [b Hb]. by rewrite app_cons in Hb.
  - split; [|done]. intros _. by exists (String c s).
  - destruct (ascii_dec d c) as [->|Hne].
    + rewrite IH. split; intros [b Hb]; exists b.
      * by rewrite app_cons, Hb.
      * rewrite app_cons in Hb. by injection Hb.
    + split; [done|]. intros [b Hb]. rewrite app_cons in Hb. by injection Hb as ->.
Qed.

Lemma split_go_skip sep u cur b :
  split_go sep (String.length u) cur (u +:+ b) = split_go sep 0 cur b.
Proof. induction u as [|c u IH]; [done|]. by rewrite app_cons; simpl. Qed.

Lemma split_go_cons sep cur c s :
  split_go sep 0 cur (String c s) =
  if startswith sep (String c s)
  then cur :: split_go sep (String.length sep - 1) "" s
  else split_go sep 0 (cur +:+ String c "") s.
Proof. reflexivity. Qed.

(** Either [sep] does not occur in [s] and the split is [s] alone, or
    [s] is cut at the first occurrence of [sep]. *)
Lemma split_go_spec sep s cur :
  sep <> "" ->
  (split_go sep 0 cur s = [cur +:+ s] /\ forall a b, s <> a +:+ sep +:+ b) \/
  (exists z rest, s = z +:+ sep +:+ rest /\
     (forall a b, s = a +:+ sep +:+ b -> String.length z <= String.length a) /\
     split_go sep 0 cur s = (cur +:+ z) :: split sep rest).
Proof.
  intros Hsep. revert cur. induction s as [|c s IH]; intros cur.
  - left. split; [by rewrite app_empty_r|].
    intros [|? a] b; [|done]. rewrite app_empty_l. by destruct sep.
  - rewrite split_go_cons. destruct (startswith sep (String c s)) eqn:Hp.
    + right. apply startswith_spec in Hp as [b Hb].
      exists "", b. split; [done|]. split; [intros; simpl; lia|].
      rewrite app_empty_r. f_equal.
      destruct sep as [|d u]; [done|]. rewrite app_cons in Hb. injection Hb as -> ->.
      simpl. rewrite Nat.sub_0_r. apply split_go_skip.
    + assert (forall b, String c s <> sep +:+ b) as Hno.
      { intros b Hb. assert (startswith sep (String c s) = true) as Ht; [|congruence].
        apply startswith_spec. eauto. }
      destruct (IH (cur +:+ String c "")) as [[Hs Hn]|(z & rest & Hz & Hmin & Hs)].
      * left. split.
        { by rewrite Hs, app_assoc_str. }
        intros [|c' a] b Hab; [by eapply Hno|].
        rewrite app_cons in Hab. injection Hab as -> Hab. by eapply Hn.
      * right. exists (String c z), rest. split; [by rewrite app_cons, Hz|]. split.
        { intros [|c' a] b Hab; [by edestruct Hno|].
          rewrite app_cons in Hab. injection Hab as -> Hab.
          apply Hmin in Hab. simpl. lia. }
        by rewrite Hs, app_assoc_str.
Qed.

Lemma split_nonempty sep s : sep <> "" -> exists z l, split sep s = z :: l.
Proof.
  intros Hsep. destruct (split_go_spec sep s "" Hsep) as [[H _]|(z & rest & _ & _ & H)];
    unfold split; rewrite H; eauto.
Qed.

(** ** The markup parser *)

Lemma find_text_strip_or_blank t ent :
  find_text_strip_or t "" ent = Ok "" <-> exists v, child_text t ent v /\ blank v.
Proof.
  unfold find_text_strip_or, child_text, text_of. split.
  - destruct (find t ent) as [c|]; simpl; [|discriminate].
    intros H. exists (text c). split; [eauto|].
    destruct (text c) as [|[|a s]]; simpl in *; try done.
    by injection H.
  - intros (v & (c & -> & <-) & Hb). simpl.
    destruct (text c) as [|[|a s]]; simpl in *; try done.
    by rewrite Hb.
Qed.

Lemma find_text_strip_has_text t ent s :
  child_text t ent (PyStr s) -> find_text_strip t ent = Ok (strip s).
Proof. intros (c & Hc & Ht). unfold find_text_strip. by rewrite Hc; simpl; rewrite Ht. Qed.

Lemma find_text_strip_Ok t ent s :
  find_text_strip t ent = Ok s -> exists s0, child_text t ent (PyStr s0) /\ s = strip s0.
Proof.
  unfold find_text_strip, child_text, text_of.
  destruct (find t ent) as [c|]; simpl; [|discriminate].
  intros (s0 & Hs0 & ->)%strip_val_Ok. eauto.
Qed.

Lemma extra_street_optional t ent :
  find t ent = None \/ has_text t ent -> exists l, extra_street t ent = Ok l.
Proof.
  unfold extra_street. intros [->|(s & c & -> & Ht)]; [eauto|].
  rewrite Ht. simpl. destruct (nonempty (strip s)); simpl; eauto.
Qed.

Lemma parse_ent_blank_identity ent r :
  find_text_strip_or "NAME" "" ent = Ok "" ->
  find_text_strip_or "COMPANY" "" ent = Ok "" ->
  parse_ent ent = Ok r ->
  r !! "name" = None /\ r !! "organization" = None.
Proof.
  intros Hn Hc H. unfold parse_ent in H. rewrite Hn, Hc in H. simpl in H.
  inv_result; subst.
  all: repeat match goal with |- context [if ?b then _ else _] => destruct b end.
  all: by simplify_map_eq.
Qed.

Lemma parse_ent_total ent :
  is_ok (find_text_strip_or "NAME" "" ent) = true ->
  is_ok (find_text_strip_or "COMPANY" "" ent) = true ->
  rest_well_formed ent ->
  exists r, parse_ent ent = Ok r.
Proof.
  intros Hn Hc ((s1 & Hs1) & (s2 & Hs2) & (s3 & Hs3) & (s4 & Hs4) & [c Hco] & H2 & H3).
  unfold parse_ent.
  destruct (find_text_strip_or "NAME" "" ent) as [name|]; [|done].
  destruct (find_text_strip_or "COMPANY" "" ent) as [company|]; [|done].
  destruct (extra_street_optional _ _ H2) as [l2 ->].
  destruct (extra_street_optional _ _ H3) as [l3 ->].
  rewrite (find_text_strip_has_text _ _ _ Hs1), (find_text_strip_has_text _ _ _ Hs2),
    (find_text_strip_has_text _ _ _ Hs3), (find_text_strip_has_text _ _ _ Hs4).
  simpl.
  destruct (split_nonempty " -" (strip s4)) as (z & l & ->); [done|].
  rewrite Hco. simpl.
  destruct (text c) as [|[|a s]]; simpl; eauto.
Qed.

(** ** What every parsed record looks like *)

Ltac split_ifs :=
  repeat match goal with
  | |- context [if ?b then _ else _] => destruct b eqn:?
  end.

Lemma parse_ent_identity ent r :
  parse_ent ent = Ok r ->
  exactly_one_identity r \/
  (r !! "name" = None /\ r !! "organization" = None /\
   (exists v, child_text "NAME" ent v /\ blank v) /\
   (exists v, child_text "COMPANY" ent v /\ blank v)).
Proof.
  intros H. unfold parse_ent in H. inv_result; subst.
  all: unfold exactly_one_identity, has_key.
  all: split_ifs; simplify_map_eq.
  all: try (left; left; split; [by eauto|done]).
  all: try (left; right; split; [done|by eauto]).
  all: right; split_and!; try done.
  all: apply find_text_strip_or_blank.
  all: repeat match goal with
       | H : nonempty _ = false |- _ => apply nonempty_false in H; subst
       end; done.
Qed.

Lemma parse_tsv_row_identity row r :
  parse_tsv_row row = Ok r -> exactly_one_identity r.
Proof.
  intros H. unfold parse_tsv_row in H. inv_result; subst.
  all: unfold exactly_one_identity, has_key; simplify_map_eq.
  all: try (left; split; [by eauto|done]).
  all: right; split; [done|by eauto].
Qed.

Lemma parse_block_identity block r :
  parse_block block = Ok r -> exactly_one_identity r.
Proof.
  intros H. unfold parse_block in H. inv_result; simplify_eq.
  all: unfold exactly_one_identity, has_key.
  all: split_ifs; simplify_map_eq.
  all: left; split; [by eauto|done].
Qed.

Lemma parse_ent_zip_str ent r : parse_ent ent = Ok r -> str_keyed zip_key r.
Proof.
  intros H. unfold parse_ent in H. inv_result; subst.
  all: unfold str_keyed, zip_key; split_ifs; simplify_map_eq; eauto.
Qed.

Lemma parse_tsv_row_zip_str row r : parse_tsv_row row = Ok r -> str_keyed zip_key r.
Proof.
  intros H. unfold parse_tsv_row in H. inv_result; subst.
  all: unfold str_keyed, zip_key; simplify_map_eq; eauto.
Qed.

Lemma parse_block_zip_str block r : parse_block block = Ok r -> str_keyed zip_key r.
Proof.
  intros H. unfold parse_block in H. inv_result; simplify_eq.
  all: unfold str_keyed, zip_key; split_ifs; simplify_map_eq; eauto.
Qed.

Lemma parse_file_Some fs path rs :
  parse_file fs path = Ok (Some rs) ->
  (endswith ".xml" path = true /\
     exists root, et_parse fs path = Ok root /\ parse_xml root = Ok rs) \/
  (endswith ".tsv" path = true /\
     exists rows, csv_reader fs path = Ok rows /\ parse_tsv rows = Ok rs) \/
  (endswith ".txt" path = true /\
     exists content, file_read fs path = Ok content /\ parse_txt content = Ok rs).
Proof.
  unfold parse_file. intros H.
  destruct (endswith ".xml" path); [|destruct (endswith ".tsv" path);
    [|destruct (endswith ".txt" path); [|discriminate]]].
  all: inv_result; subst.
  - left. split; [done|]. eexists. split; [reflexivity|eassumption].
  - right; left. split; [done|]. eexists. split; [reflexivity|eassumption].
  - right; right. split; [done|]. eexists. split; [reflexivity|eassumption].
Qed.

Lemma parse_file_zip_str fs path rs :
  parse_file fs path = Ok (Some rs) -> Forall (str_keyed zip_key) rs.
Proof.
  intros [(_ & x & _ & H)|[(_ & x & _ & H)|(_ & x & _ & H)]]%parse_file_Some.
  - eapply for_each_Forall; [|exact H]. intros ??. apply parse_ent_zip_str.
  - eapply for_each_Forall; [|exact H]. intros ??. apply parse_tsv_row_zip_str.
  - eapply for_each_Forall; [|exact H]. intros ??. apply parse_block_zip_str.
Qed.

Lemma elem_of_concat {A} (x : A) (ls : list (list A)) :
  x ∈ concat ls -> exists l, x ∈ l /\ l ∈ ls.
Proof.
  induction ls as [|l ls IH]; simpl; [by intros ?%elem_of_nil|].
  intros [H|H]%elem_of_app.
  - exists l. split; [done|left].
  - destruct (IH H) as (l' & ? & ?). exists l'. split; [done|by right].
Qed.

Lemma elem_of_combined fs args per_file r :
  for_each (parse_file fs) args = Ok per_file ->
  r ∈ concat (default [] <$> per_file) ->
  exists path rs, path ∈ args /\ parse_file fs path = Ok (Some rs) /\ r ∈ rs.
Proof.
  intros Hpf Hr. apply elem_of_concat in Hr as (l & Hr & Hl).
  apply list_elem_of_fmap in Hl as (o & -> & Ho).
  destruct (for_each_Ok_elem _ _ _ _ Hpf Ho) as (path & Hin & Hp).
  destruct o as [rs|]; [|by apply elem_of_nil in Hr]. eauto.
Qed.

Lemma combined_zip_str fs args per_file :
  for_each (parse_file fs) args = Ok per_file ->
  Forall (str_keyed zip_key) (concat (default [] <$> per_file)).
Proof.
  intros Hpf. apply Forall_forall. intros r Hr.
  destruct (elem_of_combined _ _ _ _ Hpf Hr) as (path & rs & _ & Hp & Hin).
  apply parse_file_zip_str in Hp. by eapply Forall_forall in Hp.
Qed.

Lemma main_Written_inv fs args out :
  main fs args = Written out ->
  exists files per_file,
    parse_args fs args = inr files /\ files <> [] /\
    for_each (parse_file fs) files = Ok per_file /\
    list_sort zip_key (concat (default [] <$> per_file)) = Ok out.
Proof.
  unfold main. destruct (parse_args fs args) as [code|files]; [discriminate|].
  destruct files as [|a files]; [discriminate|].
  destruct (process fs (a :: files) []) as [recs|] eqn:Hp; [|discriminate].
  apply process_spec in Hp as (pf & Hpf & ->). rewrite app_nil_l.
  destruct (list_sort zip_key _) as [o|] eqn:Hs; [|discriminate].
  destruct (write_output fs o); [|discriminate].
  intros [= <-]. exists (a :: files), pf. done.
Qed.

(** The run, once [parse_args] has returned files that all parse: the
    sort succeeds, and the outcome is that of writing the sorted array. *)
Lemma main_Written fs args files per_file :
  parse_args fs args = inr files ->
  files <> [] ->
  for_each (parse_file fs) files = Ok per_file ->
  exists out,
    list_sort zip_key (concat (default [] <$> per_file)) = Ok out /\
    main fs args =
      match write_output fs out with
      | Raise e => Uncaught e
      | Ok _ => Written out
      end.
Proof.
  intros Hargs Hne Hpf. unfold main. rewrite Hargs.
  destruct files as [|a files]; [done|].
  assert (process fs (a :: files) [] = Ok (concat (default [] <$> per_file))) as ->.
  { apply process_spec. eauto. }
  destruct (list_sort_total zip_key _ (combined_zip_str _ _ _ Hpf)) as [out Hs].
  rewrite Hs. eauto.
Qed.

Lemma for_each_elem_Ok {A B} (f : A -> result B) l ys x y :
  for_each f l = Ok ys -> x ∈ l -> f x = Ok y -> y ∈ ys.
Proof.
  revert ys. induction l as [|x0 l IH]; simpl; intros ys H Hx Hf.
  - by apply elem_of_nil in Hx.
  - inv_result; subst. apply elem_of_cons in Hx as [->|Hx].
    + rewrite Hf in E. injection E as ->. left.
    + right. by eapply IH.
Qed.

(** * Main results *)

(** ** Identity fields *)

(** C1, as stated, fails: the run on the single file [blank.xml], whose
    only entity has a white-space [NAME] and a [COMPANY] without text,
    writes a record that has neither [name] nor [organization]. *)
Lemma identity_counterexample :
  exists out r,
    main sample_fs ["blank.xml"] = Written out /\ r ∈ out /\
    ~ exactly_one_identity r.
Proof.
  destruct (main sample_fs ["blank.xml"]) as [| |out] eqn:Hm;
    [vm_compute in Hm; discriminate..|].
  destruct out as [|r out]; [vm_compute in Hm; discriminate|].
  exists (r :: out), r. split; [done|]. split; [left|].
  assert (r !! "name" = None /\ r !! "organization" = None) as [Hn Ho].
  { vm_compute in Hm. injection Hm as <- _. split; reflexivity. }
  unfold exactly_one_identity, has_key. rewrite Hn, Ho.
  intros [[[? [=]] _]|[_ [? [=]]]].
Qed.

(** C1, amended.  Every record of the final output has exactly one of
    [name] and [organization], except a record that comes from a markup
    entity whose [NAME] and [COMPANY] texts are both empty after trimming,
    which has neither. No record has both. *)
Theorem identity_exactly_one_unless_blank
    (fs : filesystem) (args : list string) (out : list record) (r : record) :
  main fs args = Written out ->
  r ∈ out ->
  exactly_one_identity r \/
  (r !! "name" = None /\ r !! "organization" = None /\
   exists path root ent,
     path ∈ args /\ endswith ".xml" path = true /\
     et_parse fs path = Ok root /\
     ent ∈ findall_descendants "ENT" root /\
     parse_ent ent = Ok r /\
     (exists v, child_text "NAME" ent v /\ blank v) /\
     (exists v, child_text "COMPANY" ent v /\ blank v)).
Proof.
  intros (files & per_file & Hargs & _ & Hpf & Hs)%main_Written_inv Hr.
  rewrite (list_sort_perm _ _ _ Hs) in Hr.
  destruct (elem_of_combined _ _ _ _ Hpf Hr) as (path & rs & Hpath & Hp & Hin).
  apply (parse_args_files fs _ _ Hargs) in Hpath.
  apply parse_file_Some in Hp
    as [(Hx & root & Hroot & H)|[(_ & x & _ & H)|(_ & x & _ & H)]].
  - destruct (for_each_Ok_elem _ _ _ _ H Hin) as (ent & Hent & Hpe).
    destruct (parse_ent_identity _ _ Hpe) as [?|(? & ? & ? & ?)]; [by left|].
    right. split_and!; [done..|]. exists path, root, ent. done.
  - destruct (for_each_Ok_elem _ _ _ _ H Hin) as (row & _ & Hrow).
    left. by eapply parse_tsv_row_identity.
  - destruct (for_each_Ok_elem _ _ _ _ H Hin) as (block & _ & Hb).
    left. by eapply parse_block_identity.
Qed.

(** ** The sort *)

Lemma zip_key_sorts_as (r : record) (s : string) :
  zip_key r = PyStr s <-> sorts_as r s.
Proof.
  unfold zip_key, sorts_as. destruct (r !! "zip") as [[|z]|]; simpl; naive_solver.
Qed.

Lemma key_le_zip_ordered (x y : record) : key_le zip_key x y -> zip_ordered x y.
Proof.
  intros (s & t & Hx & Hy & Hle). exists s, t.
  split_and!; [by apply zip_key_sorts_as..|done].
Qed.

Lemma StronglySorted_mono {A} (R1 R2 : A -> A -> Prop) l :
  (forall x y, R1 x y -> R2 x y) -> StronglySorted R1 l -> StronglySorted R2 l.
Proof.
  intros HR. induction 1 as [|x l Hl IH Hx]; constructor; [done|].
  eapply Forall_impl; [exact Hx|]. intros y. apply HR.
Qed.

Lemma filter_sorts_as (l : list record) (s : string) :
  filter (fun r => sorts_as r s) l = filter (fun r => zip_key r = PyStr s) l.
Proof. apply list_filter_iff. intros r. symmetry. apply zip_key_sorts_as. Qed.

(** C2.  When [parse_args] has returned the files and every file is
    processed without an exception, the sort succeeds, and the run writes
    its result (or ends with the exception that writing [output.json]
    raises).  The sorted sequence holds the records of the files, in the
    order of the files and then of the records in each file, rearranged so
    that each record comes before the records whose zip string (the [zip]
    value, ["99999"] without [zip]) is not smaller, in lexicographic
    order; the records of any one zip string keep the order they have in
    the concatenation. *)
Theorem main_sorted_stable
    (fs : filesystem) (args files : list string)
    (per_file : list (option (list record))) :
  parse_args fs args = inr files ->
  files <> [] ->
  for_each (parse_file fs) files = Ok per_file ->
  exists out,
    StronglySorted zip_ordered out /\
    (forall s, filter (fun r => sorts_as r s) out =
               filter (fun r => sorts_as r s) (concat (default [] <$> per_file))) /\
    out ≡ₚ concat (default [] <$> per_file) /\
    (main fs args = Written out \/
     exists e, write_output fs out = Raise e /\ main fs args = Uncaught e).
Proof.
  intros Hargs Hne Hpf.
  destruct (main_Written fs args files per_file Hargs Hne Hpf) as (out & Hs & Hm).
  exists out. split_and!.
  - eapply StronglySorted_mono; [exact key_le_zip_ordered|].
    exact (list_sort_sorted zip_key _ _ Hs).
  - intros s. rewrite !filter_sorts_as.
    exact (list_sort_stable zip_key _ _ (PyStr s) Hs).
  - exact (list_sort_perm zip_key _ _ Hs).
  - rewrite Hm. destruct (write_output fs out) as [u|e]; [by left|right; eauto].
Qed.

(** ** Sample runs *)

Example parse_xml_sample : parse_xml sample_root = Ok [ann_record].
Proof. vm_compute. reflexivity. Qed.

Example parse_tsv_sample : parse_tsv sample_rows = Ok [bo_record; acme_record].
Proof. vm_compute. reflexivity. Qed.

Example parse_txt_sample : parse_txt sample_text = Ok [doe_record; cy_record].
Proof. vm_compute. reflexivity. Qed.

Example main_sample : main sample_fs sample_args = Written sample_sorted.
Proof. vm_compute. reflexivity. Qed.

(** The order is that of strings, not of numbers. *)
Example zip_order_is_lexicographic :
  String.ltb "10001-0001" "30301" = true /\ String.ltb "100000" "20" = true.
Proof. split; reflexivity. Qed.

Lemma identity_exactly_one_unless_blank_witness :
  main sample_fs ["blank.xml"] = Written [blank_record] /\
  blank_record ∈ [blank_record] /\
  (exactly_one_identity blank_record \/
   (blank_record !! "name" = None /\ blank_record !! "organization" = None /\
    exists path root ent,
      path ∈ ["blank.xml"] /\ endswith ".xml" path = true /\
      et_parse sample_fs path = Ok root /\
      ent ∈ findall_descendants "ENT" root /\
      parse_ent ent = Ok blank_record /\
      (exists v, child_text "NAME" ent v /\ blank v) /\
      (exists v, child_text "COMPANY" ent v /\ blank v))).
Proof.
  split; [vm_compute; reflexivity|]. split; [left|].
  apply (identity_exactly_one_unless_blank sample_fs ["blank.xml"] [blank_record]).
  - vm_compute. reflexivity.
  - left.
Defined.

Lemma main_sorted_stable_witness :
  main sample_fs sample_args = Written sample_sorted /\
  exists out,
    StronglySorted zip_ordered out /\
    (forall s, filter (fun r => sorts_as r s) out =
               filter (fun r => sorts_as r s)
                 (concat (default [] <$> sample_per_file))) /\
    out ≡ₚ concat (default [] <$> sample_per_file) /\
    (main sample_fs sample_args = Written out \/
     exists e, write_output sample_fs out = Raise e /\
               main sample_fs sample_args = Uncaught e).
Proof.
  split; [vm_compute; reflexivity|].
  apply (main_sorted_stable sample_fs sample_args sample_args sample_per_file).
  - vm_compute. reflexivity.
  - discriminate.
  - vm_compute. reflexivity.
Defined.

(** [-h] ends the run with status 0 before any file is read, and a run
    without arguments ends with status 2. *)
Example help_run :
  main sample_fs ["-h"; "no_county.tsv"] = Exit 0 /\ main sample_fs [] = Exit 2.
Proof. split; reflexivity. Qed.

(** When [output.json] cannot be written the exception is not caught. *)
Example unwritable_output_run :
  main readonly_fs sample_args = Uncaught OSError.
Proof. vm_compute. reflexivity. Qed.

(** ** Empty files *)

(** C3.  A table without rows, a table with only its header and a
    document without entities give no record and no exception; the empty
    text does not: [parse_txt] raises [IndexError] on it, and the run on
    an empty [.txt] file ends with status 1. *)
Theorem empty_text_file_raises :
  parse_txt "" = Raise IndexError /\
  main sample_fs ["empty.txt"] = Exit 1 /\
  parse_tsv [] = Ok [] /\
  (forall fieldnames, parse_tsv [fieldnames] = Ok []) /\
  (forall t tx, parse_xml (Elem t tx []) = Ok []).
Proof. split_and!; reflexivity. Qed.

(** ** Trimming *)

(** C4.  Two fields are stored without being trimmed: the
    [organization] of a table row, and the [name] of a block whose first
    line contains a comma. *)
Theorem untrimmed_fields_stored :
  (exists r0 r, parse_tsv sample_rows = Ok [r0; r] /\
     r !! "organization" = Some (PyStr " Acme ") /\ ~ trimmed " Acme ") /\
  (exists r r1, parse_txt sample_text = Ok [r; r1] /\
     r !! "name" = Some (PyStr "Doe John ") /\ ~ trimmed "Doe John ").
Proof.
  split.
  - exists bo_record, acme_record. split_and!; [by vm_compute..|]. by vm_compute.
  - exists doe_record, cy_record. split_and!; [by vm_compute..|]. by vm_compute.
Qed.

(** ** City, state and zip of a block *)

(** C5, as stated, fails: with two spaces between state and zip the
    second white-space token of the part after the comma is the zip code,
    but the record's [zip] is the empty string. *)
Lemma block_zip_counterexample :
  exists line p0 p1 r,
    city_state_zip_line two_space_block = Some line /\
    split "," line = [p0; p1] /\
    whitespace_tokens (strip p1) !! 1 = Some "30301" /\
    parse_block two_space_block = Ok r /\
    r !! "zip" = Some (PyStr "") /\
    r !! "zip" <> PyStr <$> whitespace_tokens (strip p1) !! 1.
Proof.
  exists "Atlanta, GA  30301", "Atlanta", " GA  30301", two_space_record.
  split_and!; by vm_compute.
Qed.

(** C5, amended.  For every block that parses, the city/state/zip line
    split at the commas has a first and a second part; [city] is the
    first part trimmed, and [state] and [zip] are the first and the second
    piece, trimmed, of the trimmed second part split at every single
    space. *)
Theorem block_city_state_zip (block : string) (r : record) :
  parse_block block = Ok r ->
  exists line p0 p1 s0 s1,
    city_state_zip_line block = Some line /\
    split "," line !! 0 = Some p0 /\
    split "," line !! 1 = Some p1 /\
    split " " (strip p1) !! 0 = Some s0 /\
    split " " (strip p1) !! 1 = Some s1 /\
    r !! "city" = Some (PyStr (strip p0)) /\
    r !! "state" = Some (PyStr (strip s0)) /\
    r !! "zip" = Some (PyStr (strip s1)).
Proof.
  intros H. unfold parse_block in H. inv_result; simplify_eq.
  all: repeat match goal with
       | H : getitem_list _ _ = Ok _ |- _ => apply getitem_list_Ok in H
       end.
  all: unfold city_state_zip_line.
  all: match goal with
       | H : split NL _ !! 2 = Some _ |- _ => rewrite H; simpl
       end.
  all: match goal with H : contains "COUNTY" _ = _ |- _ => rewrite H end.
  all: do 5 eexists; split_and!; try eassumption; try reflexivity.
  all: split_ifs; by simplify_map_eq.
Qed.

Lemma block_city_state_zip_witness :
  parse_block two_space_block = Ok two_space_record /\
  exists line p0 p1 s0 s1,
    city_state_zip_line two_space_block = Some line /\
    split "," line !! 0 = Some p0 /\
    split "," line !! 1 = Some p1 /\
    split " " (strip p1) !! 0 = Some s0 /\
    split " " (strip p1) !! 1 = Some s1 /\
    two_space_record !! "city" = Some (PyStr (strip p0)) /\
    two_space_record !! "state" = Some (PyStr (strip s0)) /\
    two_space_record !! "zip" = Some (PyStr (strip s1)).
Proof.
  split; [vm_compute; reflexivity|].
  apply (block_city_state_zip two_space_block two_space_record).
  vm_compute. reflexivity.
Defined.

(** ** The postal code of a markup entity *)

Lemma split_head sep s z :
  sep <> "" -> split sep s !! 0 = Some z ->
  (z = s /\ forall a b, s <> a +:+ sep +:+ b) \/
  (exists rest, s = z +:+ sep +:+ rest /\
     forall a b, s = a +:+ sep +:+ b -> String.length z <= String.length a).
Proof.
  intros Hsep Hz. unfold split in Hz.
  destruct (split_go_spec sep s "" Hsep) as [[H Hn]|(z' & rest & Hs & Hmin & H)];
    rewrite H in Hz; simpl in Hz; injection Hz as <-.
  - left. by rewrite app_empty_l.
  - right. rewrite app_empty_l. eauto.
Qed.

(** C8.  For every entity that parses, [zip] is the trimmed text of
    [POSTAL_CODE] cut at the first occurrence of [" -"]: the whole text
    when [" -"] does not occur in it, else the part before the first
    occurrence. *)
Theorem xml_zip_truncated (ent : Element) (r : record) :
  parse_ent ent = Ok r ->
  exists t z,
    child_text "POSTAL_CODE" ent (PyStr t) /\
    r !! "zip" = Some (PyStr z) /\
    ((z = strip t /\ forall a b, strip t <> a +:+ " -" +:+ b) \/
     (exists rest, strip t = z +:+ " -" +:+ rest /\
        forall a b, strip t = a +:+ " -" +:+ b ->
                    String.length z <= String.length a)).
Proof.
  intros H. unfold parse_ent in H. inv_result; subst.
  all: match goal with
       | H : find_text_strip "POSTAL_CODE" _ = Ok _ |- _ =>
           apply find_text_strip_Ok in H as (t & Ht & ->)
       end.
  all: match goal with
       | H : getitem_list (split _ _) 0 = Ok ?z |- _ =>
           apply getitem_list_Ok in H; exists t, z
       end.
  all: split; [done|]; split; [split_ifs; by simplify_map_eq|].
  all: by apply split_head.
Qed.

Lemma xml_zip_truncated_witness :
  parse_ent sample_ent = Ok ann_record /\
  exists t z,
    child_text "POSTAL_CODE" sample_ent (PyStr t) /\
    ann_record !! "zip" = Some (PyStr z) /\
    ((z = strip t /\ forall a b, strip t <> a +:+ " -" +:+ b) \/
     (exists rest, strip t = z +:+ " -" +:+ rest /\
        forall a b, strip t = a +:+ " -" +:+ b ->
                    String.length z <= String.length a)).
Proof.
  split; [vm_compute; reflexivity|].
  apply (xml_zip_truncated sample_ent ann_record).
  vm_compute. reflexivity.
Defined.

(** The example of the specification: ["12345 -6789"] gives ["12345"]. *)
Example xml_zip_example :
  split " -" (strip "12345 -6789") !! 0 = Some "12345" /\
  exists r, parse_ent (Elem "ENT" None
      [leaf "NAME" "Ann Lee"; leaf "COMPANY" ""; leaf "STREET" "1 Main St";
       leaf "CITY" "Atlanta"; leaf "STATE" "GA";
       leaf "POSTAL_CODE" "12345 -6789"; leaf "COUNTRY" ""]) = Ok r /\
    r !! "zip" = Some (PyStr "12345").
Proof. split; [reflexivity|]. eexists. split; by vm_compute. Qed.

(** ** The country of a markup entity *)

(** C6.  An entity without a [COUNTRY] child does not parse: reading the
    [text] of the child that [find] did not find raises. *)
Theorem xml_country_child_required (ent : Element) :
  find "COUNTRY" ent = None -> exists e, parse_ent ent = Raise e.
Proof.
  intros Hc. destruct (parse_ent ent) as [r|e] eqn:H; [|eauto].
  exfalso. unfold parse_ent in H. rewrite Hc in H. simpl in H. inv_result.
Qed.

Lemma xml_country_child_required_witness :
  find "COUNTRY" no_country_ent = None /\
  exists e, parse_ent no_country_ent = Raise e.
Proof.
  split; [reflexivity|].
  apply (xml_country_child_required no_country_ent). reflexivity.
Defined.

Example no_country_ent_raises : parse_ent no_country_ent = Raise AttributeError.
Proof. reflexivity. Qed.

(** When the child is there, [country] is in the record exactly when its
    text is not empty after trimming. *)
Lemma parse_ent_country ent r :
  parse_ent ent = Ok r ->
  exists v, child_text "COUNTRY" ent v /\ (r !! "country" = None <-> blank v) /\
    forall s, v = PyStr s -> ~ blank v -> r !! "country" = Some (PyStr (strip s)).
Proof.
  intros H. unfold parse_ent in H. inv_result; subst.
  all: match goal with
       | H : text_of (find "COUNTRY" ?e) = Ok ?v |- _ =>
           exists v; unfold text_of in H;
           destruct (find "COUNTRY" e) as [c|] eqn:Hc; [|discriminate];
           injection H as H; split; [by exists c|]; clear Hc; subst v
       end.
  all: destruct (text c) as [|x]; try discriminate.
  all: repeat match goal with
       | H : strip_val (PyStr _) = Ok _ |- _ => injection H as <-
       end.
  all: rewrite ?truthy_PyStr in *.
  all: unfold blank.
  all: repeat match goal with
       | |- context [if nonempty ?s then _ else _] => destruct (nonempty s) eqn:?
       end.
  all: repeat match goal with
       | H : nonempty _ = false |- _ => apply nonempty_false in H
       | H : nonempty _ = true |- _ => apply nonempty_true in H
       end.
  all: simplify_map_eq.
  all: try (split; [done|]; intros s ? Hb; by destruct Hb).
  all: try (split; [done|]; intros s [= <-] ?; done).
  all: try (split; [split; [done|intros; congruence]|intros s [= <-] ?; done]).
Qed.

(** ** An entity without identity *)

(** C9.  An entity whose [NAME] and [COMPANY] children are there with
    texts that are empty after trimming, and whose other children are as
    the parser needs them, parses without exception into a record with
    neither [name] nor [organization]; that record is among those
    [parse_xml] returns for a document the entity occurs in. *)
Theorem blank_identity_record_emitted (ent : Element) :
  (exists v, child_text "NAME" ent v /\ blank v) ->
  (exists v, child_text "COMPANY" ent v /\ blank v) ->
  rest_well_formed ent ->
  exists r,
    parse_ent ent = Ok r /\
    r !! "name" = None /\ r !! "organization" = None /\
    forall root rs,
      tag ent = "ENT" -> ent ∈ flat_map iter (children root) ->
      parse_xml root = Ok rs -> r ∈ rs.
Proof.
  intros Hn%find_text_strip_or_blank Hc%find_text_strip_or_blank Hrest.
  destruct (parse_ent_total ent) as [r Hr]; [by rewrite Hn|by rewrite Hc|done|].
  exists r. destruct (parse_ent_blank_identity _ _ Hn Hc Hr) as [? ?].
  split_and!; [done..|].
  intros root rs Htag Hin Hrs. unfold parse_xml in Hrs.
  eapply for_each_elem_Ok; [exact Hrs| |exact Hr].
  unfold findall_descendants. by apply list_elem_of_filter.
Qed.

Lemma blank_identity_record_emitted_witness :
  exists r,
    parse_ent blank_ent = Ok r /\
    r !! "name" = None /\ r !! "organization" = None /\
    forall root rs,
      tag blank_ent = "ENT" -> blank_ent ∈ flat_map iter (children root) ->
      parse_xml root = Ok rs -> r ∈ rs.
Proof.
  apply (blank_identity_record_emitted blank_ent).
  - exists (PyStr "  "). split; [|reflexivity].
    exists (leaf "NAME" "  "). split; reflexivity.
  - exists PyNone. split; [|exact I].
    exists (Elem "COMPANY" None []). split; reflexivity.
  - unfold rest_well_formed, has_text, child_text.
    split; [exists "9 Elm St"; eexists; split; reflexivity|].
    split; [exists "Reno"; eexists; split; reflexivity|].
    split; [exists "NV"; eexists; split; reflexivity|].
    split; [exists "89501"; eexists; split; reflexivity|].
    split; [eexists; reflexivity|].
    split; left; reflexivity.
Defined.

Example blank_ent_record : parse_xml blank_root = Ok [blank_record].
Proof. vm_compute. reflexivity. Qed.

(** ** The zip code of a table row *)

Lemma tsv_zip_plus4_witness :
  exists z, dict_row sample_header
      ["Bo"; ""; "Diaz "; "N/A"; "2 Oak Ave"; "New York"; "NY"; ""; "10001"; "0001"]
      !! "zip" = Some (PyStr z) /\
    ("0001" <> "" -> bo_record !! "zip" = Some (PyStr (strip z +:+ "-" +:+ strip "0001"))) /\
    ("0001" = "" -> bo_record !! "zip" = Some (PyStr (strip z))).
Proof.
  apply (tsv_zip_plus4 _ bo_record "0001").
  - vm_compute. reflexivity.
  - vm_compute. reflexivity.
Defined.

(** The examples of the specification: [zip] 94105 with [zip4] 1234, and
    with an empty [zip4]. *)
Example tsv_zip_examples :
  (exists r, parse_tsv_row (dict_row sample_header
      ["A"; ""; "B"; "N/A"; "1 St"; "SF"; "CA"; ""; "94105"; "1234"]) = Ok r /\
     r !! "zip" = Some (PyStr "94105-1234")) /\
  (exists r, parse_tsv_row (dict_row sample_header
      ["A"; ""; "B"; "N/A"; "1 St"; "SF"; "CA"; ""; "94105"; ""]) = Ok r /\
     r !! "zip" = Some (PyStr "94105")).
Proof. split; eexists; split; by vm_compute. Qed.

(** ** The county column *)

Lemma parse_file_tsv_Raise fs path rows :
  endswith ".tsv" path = true -> csv_reader fs path = Ok rows ->
  is_ok (parse_tsv rows) = false -> is_ok (parse_file fs path) = false.
Proof.
  intros Ht Hrows Hp. unfold parse_file.
  rewrite (endswith_tsv_not_xml _ Ht), Ht, Hrows. simpl.
  by destruct (parse_tsv rows).
Qed.

(** C10.  When the header has no [county] column, the first data row
    (the first row after the header that is not empty) raises, so
    [parse_tsv] raises, and a run whose files ([parse_args] returned them)
    include the table ends with status 1.  For a row that parses, [county]
    is absent from the record exactly when the row's [county] is the empty
    string. *)
Theorem tsv_county_column_required
    (fieldnames : list string) (data : list (list string))
    (cells : list string) (rest : list (list string)) :
  "county" ∉ fieldnames ->
  filter (fun r => r <> []) data = cells :: rest ->
  (exists e, parse_tsv_row (dict_row fieldnames cells) = Raise e /\
             parse_tsv (fieldnames :: data) = Raise e) /\
  (forall fs args files path,
      parse_args fs args = inr files ->
      path ∈ files -> endswith ".tsv" path = true ->
      csv_reader fs path = Ok (fieldnames :: data) ->
      main fs args = Exit 1) /\
  (forall row r, parse_tsv_row row = Ok r ->
      (r !! "county" = None <-> row !! "county" = Some (PyStr ""))).
Proof.
  intros Hk Hdata.
  destruct (parse_tsv_row_no_county fieldnames cells Hk) as [e He].
  assert (parse_tsv (fieldnames :: data) = Raise e) as Hp.
  { unfold parse_tsv, dict_reader. rewrite Hdata, fmap_cons. simpl. by rewrite He. }
  split_and!.
  - eauto.
  - intros fs args files path Hargs Hin Ht Hrows.
    apply (main_Exit_1 fs args files path Hargs Hin).
    eapply parse_file_tsv_Raise; [done..|]. by rewrite Hp.
  - apply parse_tsv_row_county.
Qed.

Lemma tsv_county_column_required_witness :
  (exists e, parse_tsv_row (dict_row
       ["first"; "middle"; "last"; "organization"; "address"; "city"; "state"; "zip"; "zip4"]
       ["Bo"; ""; "Diaz"; "N/A"; "2 Oak Ave"; "New York"; "NY"; "10001"; "0001"]) = Raise e /\
     parse_tsv no_county_rows = Raise e) /\
  (forall fs args files path,
      parse_args fs args = inr files ->
      path ∈ files -> endswith ".tsv" path = true ->
      csv_reader fs path = Ok no_county_rows ->
      main fs args = Exit 1) /\
  (forall row r, parse_tsv_row row = Ok r ->
      (r !! "county" = None <-> row !! "county" = Some (PyStr ""))).
Proof.
  apply (tsv_county_column_required
    ["first"; "middle"; "last"; "organization"; "address"; "city"; "state"; "zip"; "zip4"]
    [[]; ["Bo"; ""; "Diaz"; "N/A"; "2 Oak Ave"; "New York"; "NY"; "10001"; "0001"]]
    ["Bo"; ""; "Diaz"; "N/A"; "2 Oak Ave"; "New York"; "NY"; "10001"; "0001"] []).
  - rewrite !elem_of_cons, elem_of_nil. intros H.
    repeat (destruct H as [H|H]; [discriminate H|]). exact H.
  - reflexivity.
Defined.

Example no_county_run :
  parse_tsv no_county_rows = Raise (KeyError "county") /\
  main sample_fs ["a.xml"; "no_county.tsv"] = Exit 1.
Proof. split; by vm_compute. Qed.

(** A row too short to reach the [county] column does not parse either:
    its [county] is [None], which has no [strip]. *)
Example short_row_raises :
  parse_tsv [sample_header; ["Bo"; ""; "Diaz"; "N/A"; "2 Oak Ave"; "New York"; "NY"]]
  = Raise AttributeError.
Proof. by vm_compute. Qed.

(** ** String methods on samples *)

Example split_samples :
  split " -" "12345 -6789" = ["12345"; "6789"] /\
  split (NL +:+ NL) "" = [""] /\
  split " " "CA  90210" = ["CA"; ""; "90210"] /\
  split "," "a,b," = ["a"; "b"; ""].
Proof. split_and!; reflexivity. Qed.

Example strip_samples :
  strip "  a b  " = "a b" /\ strip (NL +:+ " x" +:+ NL) = "x" /\ strip "   " = "".
Proof. split_and!; reflexivity. Qed.

Example replace_samples :
  replace "," "" "Doe, John" = "Doe John" /\
  replace "COUNTY" "" "FULTON COUNTY" = "FULTON ".
Proof. split_and!; reflexivity. Qed.

Example endswith_samples :
  endswith ".xml" "a.xml" = true /\ endswith ".xml" "a.xml2" = false /\
  endswith ".txt" "a.TXT" = false.
Proof. split_and!; reflexivity. Qed.

(** * Further properties *)

(** ** Trimming *)

Lemma lstrip_length s : String.length (lstrip s) <= String.length s.
Proof.
  induction s as [|c s IH]; simpl; [done|].
  destruct (isspace c); simpl; lia.
Qed.

Lemma rstrip_length s : String.length (rstrip s) <= String.length s.
Proof.
  induction s as [|c s IH]; simpl; [done|].
  destruct (rstrip s); [destruct (isspace c)|]; simpl in *; lia.
Qed.

Lemma lstrip_cons c s :
  lstrip (String c s) = if isspace c then lstrip s else String c s.
Proof. reflexivity. Qed.

Lemma rstrip_cons c s :
  rstrip (String c s) =
  match rstrip s with
  | "" => if isspace c then "" else String c ""
  | r => String c r
  end.
Proof. reflexivity. Qed.

Lemma lstrip_idem s : lstrip (lstrip s) = lstrip s.
Proof.
  induction s as [|c s IH]; [done|]. rewrite lstrip_cons.
  destruct (isspace c) eqn:Hc; [done|]. by rewrite lstrip_cons, Hc.
Qed.

Lemma rstrip_idem s : rstrip (rstrip s) = rstrip s.
Proof.
  induction s as [|c s IH]; [done|]. rewrite rstrip_cons.
  destruct (rstrip s) as [|d r] eqn:Hr.
  - destruct (isspace c) eqn:Hc; [done|]. by rewrite rstrip_cons, Hc.
  - by rewrite rstrip_cons, IH.
Qed.

Lemma lstrip_rstrip s : lstrip (rstrip s) = rstrip (lstrip s).
Proof.
  induction s as [|c s IH]; [done|]. rewrite rstrip_cons, lstrip_cons.
  destruct (isspace c) eqn:Hc.
  - destruct (rstrip s) as [|d r] eqn:Hr.
    + by rewrite <- IH.
    + by rewrite lstrip_cons, Hc, IH.
  - rewrite rstrip_cons.
    destruct (rstrip s) as [|d r]; by rewrite ?Hc, lstrip_cons, Hc.
Qed.

Lemma strip_idem s : strip (strip s) = strip s.
Proof.
  unfold strip. by rewrite lstrip_rstrip, lstrip_idem, rstrip_idem.
Qed.

Lemma trimmed_strip s : trimmed (strip s).
Proof. apply strip_idem. Qed.

Lemma lstrip_fixed s :
  String.length (lstrip s) = String.length s -> lstrip s = s.
Proof.
  destruct s as [|c s]; [done|]. rewrite lstrip_cons.
  destruct (isspace c); [|done].
  pose proof (lstrip_length s). simpl. lia.
Qed.

Lemma trimmed_inv s : trimmed s -> lstrip s = s /\ rstrip s = s.
Proof.
  unfold trimmed, strip. intros H.
  assert (lstrip s = s) as Hl.
  { apply lstrip_fixed. pose proof (lstrip_length s).
    pose proof (rstrip_length (lstrip s)). rewrite H in *. lia. }
  by rewrite Hl in H.
Qed.

Lemma lstrip_app a x : lstrip a = a -> a <> "" -> lstrip (a +:+ x) = a +:+ x.
Proof.
  destruct a as [|c a]; [done|]. intros H _.
  rewrite app_cons, lstrip_cons. rewrite lstrip_cons in H.
  destruct (isspace c); [|done].
  pose proof (lstrip_length a) as Hl. rewrite H in Hl. simpl in Hl. lia.
Qed.

Lemma rstrip_app x b : rstrip b = b -> b <> "" -> rstrip (x +:+ b) = x +:+ b.
Proof.
  intros H Hb. induction x as [|c x IH]; [done|].
  rewrite app_cons, rstrip_cons, IH.
  destruct (x +:+ b) eqn:Hx; [|done].
  destruct x; [by rewrite app_empty_l in Hx|by rewrite app_cons in Hx].
Qed.

Lemma trimmed_ends a x b :
  lstrip a = a -> a <> "" -> rstrip b = b -> b <> "" -> trimmed (a +:+ x +:+ b).
Proof.
  intros Ha Hna Hb Hnb. unfold trimmed, strip.
  rewrite (lstrip_app _ _ Ha Hna), <- !app_assoc_str.
  by rewrite (rstrip_app _ _ Hb Hnb).
Qed.

Lemma join_cons2 sep a b l :
  join sep (a :: b :: l) = a +:+ sep +:+ join sep (b :: l).
Proof. reflexivity. Qed.

Lemma join_nonempty sep a l : a <> "" -> join sep (a :: l) <> "".
Proof.
  intros Ha. destruct l as [|b l]; [done|]. rewrite join_cons2.
  destruct a; [done|by rewrite app_cons].
Qed.

Lemma trimmed_join l :
  Forall (fun s => trimmed s /\ s <> "") l -> trimmed (join " " l).
Proof.
  induction 1 as [|a l [Ha Hna] Hl IH]; [done|].
  destruct l as [|b l]; [done|]. rewrite join_cons2.
  apply trimmed_inv in Ha as [Ha _]. apply trimmed_inv in IH as [_ IH].
  apply trimmed_ends; [done..|].
  apply Forall_cons in Hl as [[_ Hnb] _]. by apply join_nonempty.
Qed.

Lemma find_text_strip_or_trimmed t ent s :
  find_text_strip_or t "" ent = Ok s -> trimmed s.
Proof.
  unfold find_text_strip_or. destruct (text_of (find t ent)) as [v|]; simpl; [|done].
  destruct (truthy v).
  - intros (s0 & _ & ->)%strip_val_Ok. apply trimmed_strip.
  - by intros [= <-].
Qed.

Lemma find_text_strip_trimmed t ent s : find_text_strip t ent = Ok s -> trimmed s.
Proof. intros (s0 & _ & ->)%find_text_strip_Ok. apply trimmed_strip. Qed.

Lemma strip_val_trimmed v s : strip_val v = Ok s -> trimmed s.
Proof. intros (s0 & _ & ->)%strip_val_Ok. apply trimmed_strip. Qed.

Lemma filter_nonempty_trimmed l :
  Forall trimmed l ->
  Forall (fun s => trimmed s /\ s <> "") (List.filter nonempty l).
Proof.
  induction 1 as [|a l Ha Hl IH]; simpl; [constructor|].
  destruct (nonempty a) eqn:Hn; [|done].
  constructor; [|done]. split; [done|]. by apply nonempty_true.
Qed.

Lemma trimmed_zip_plus4 a b : trimmed (strip a +:+ "-" +:+ strip b).
Proof.
  destruct (trimmed_inv _ (trimmed_strip a)) as [Ha _].
  destruct (trimmed_inv _ (trimmed_strip b)) as [_ Hb].
  destruct (strip a) as [|c sa] eqn:Ea; destruct (strip b) as [|d sb] eqn:Eb.
  - reflexivity.
  - change (trimmed ("-" +:+ "" +:+ String d sb)). by apply trimmed_ends.
  - rewrite <- (app_empty_r "-"), <- app_assoc_str, app_empty_r.
    change (trimmed (String c sa +:+ "" +:+ "-")). by apply trimmed_ends.
  - by apply trimmed_ends.
Qed.

Lemma trimmed_name_parts a b c :
  trimmed (join " " (List.filter nonempty [strip a; strip b; strip c])).
Proof.
  apply trimmed_join, filter_nonempty_trimmed.
  repeat constructor; apply trimmed_strip.
Qed.

Ltac trimmed_facts :=
  repeat match goal with
  | H : find_text_strip_or _ "" _ = Ok _ |- _ => apply find_text_strip_or_trimmed in H
  | H : find_text_strip _ _ = Ok _ |- _ => apply find_text_strip_trimmed in H
  | H : strip_val _ = Ok _ |- _ => apply strip_val_trimmed in H
  end.

Ltac pick_key Hk :=
  repeat (apply elem_of_cons in Hk as [->|Hk]); [..|by apply elem_of_nil in Hk].

(** Every [name], [organization], [city], [state] and [country] that the
    markup parser stores is trimmed. *)
Theorem xml_fields_trimmed (ent : Element) (r : record) (k s : string) :
  parse_ent ent = Ok r ->
  k ∈ ["name"; "organization"; "city"; "state"; "country"] ->
  r !! k = Some (PyStr s) ->
  trimmed s.
Proof.
  intros H Hk Hs. unfold parse_ent in H. inv_result; subst.
  all: trimmed_facts.
  all: pick_key Hk.
  all: revert Hs; split_ifs; simplify_map_eq; intros; simplify_eq;
       try done; apply trimmed_strip.
Qed.

Lemma xml_fields_trimmed_witness : trimmed "Ann Lee".
Proof.
  apply (xml_fields_trimmed sample_ent ann_record "name" "Ann Lee").
  - vm_compute. reflexivity.
  - left.
  - vm_compute. reflexivity.
Defined.

(** Every [name], [street], [county], [city], [state] and [zip] that the
    tabular parser stores is trimmed (the [organization] is stored as it
    is in the row). *)
Theorem tsv_fields_trimmed (row r : record) (k s : string) :
  parse_tsv_row row = Ok r ->
  k ∈ ["name"; "street"; "county"; "city"; "state"; "zip"] ->
  r !! k = Some (PyStr s) ->
  trimmed s.
Proof.
  intros H Hk Hs. unfold parse_tsv_row in H. inv_result; subst.
  all: repeat match goal with
       | H : strip_val ?v = Ok _ |- _ =>
           apply strip_val_Ok in H as (? & ? & ->)
       end.
  all: pick_key Hk.
  all: simplify_map_eq; try apply trimmed_strip; try apply trimmed_zip_plus4.
  all: apply trimmed_name_parts.
Qed.

Lemma tsv_fields_trimmed_witness : trimmed "Bo Diaz".
Proof.
  apply (tsv_fields_trimmed
    (dict_row sample_header
       ["Bo"; ""; "Diaz "; "N/A"; "2 Oak Ave"; "New York"; "NY"; ""; "10001"; "0001"])
    bo_record "name" "Bo Diaz").
  - vm_compute. reflexivity.
  - left.
  - vm_compute. reflexivity.
Defined.

(** Every [street], [county], [city], [state] and [zip] that the
    block-text parser stores is trimmed. *)
Theorem txt_fields_trimmed (block : string) (r : record) (k s : string) :
  parse_block block = Ok r ->
  k ∈ ["street"; "county"; "city"; "state"; "zip"] ->
  r !! k = Some (PyStr s) ->
  trimmed s.
Proof.
  intros H Hk Hs. unfold parse_block in H. inv_result; simplify_eq.
  all: pick_key Hk.
  all: revert Hs; split_ifs; simplify_map_eq; intros; simplify_eq;
       apply trimmed_strip.
Qed.

Lemma txt_fields_trimmed_witness : trimmed "Atlanta".
Proof.
  apply (txt_fields_trimmed two_space_block two_space_record "city" "Atlanta").
  - vm_compute. reflexivity.
  - right. right. left.
  - vm_compute. reflexivity.
Defined.

(** ** The run as a whole *)

Lemma parse_file_unsupported fs path :
  endswith ".xml" path = false -> endswith ".tsv" path = false ->
  endswith ".txt" path = false -> parse_file fs path = Ok None.
Proof. intros Hx Ht Hp. unfold parse_file. by rewrite Hx, Ht, Hp. Qed.

Lemma process_unsupported fs l1 path l2 acc :
  parse_file fs path = Ok None ->
  process fs (l1 ++ path :: l2) acc = process fs (l1 ++ l2) acc.
Proof.
  intros Hp. revert acc. induction l1 as [|p l1 IH]; intros acc; simpl.
  - rewrite Hp. simpl. by rewrite app_nil_r.
  - destruct (parse_file fs p); simpl; [apply IH|done].
Qed.

(** A file with none of the three suffixes is passed over without being
    read: when [parse_args] returns it among the files, the run ends as a
    run does for which [parse_args] returns the other files, and when it
    is the only file the run goes on to write the empty array. *)
Theorem unsupported_file_skipped
    (fs : filesystem) (args : list string) (l1 l2 : list string) (path : string) :
  endswith ".xml" path = false ->
  endswith ".tsv" path = false ->
  endswith ".txt" path = false ->
  parse_args fs args = inr (l1 ++ path :: l2) ->
  (l1 ++ l2 = [] ->
   main fs args =
     match write_output fs [] with
     | Raise e => Uncaught e
     | Ok _ => Written []
     end) /\
  (forall args', l1 ++ l2 <> [] -> parse_args fs args' = inr (l1 ++ l2) ->
                 main fs args = main fs args').
Proof.
  intros Hx Ht Hp Hargs.
  pose proof (parse_file_unsupported fs path Hx Ht Hp) as Hnone.
  pose proof (process_unsupported fs l1 path l2 [] Hnone) as Hproc.
  unfold main. rewrite Hargs.
  destruct (l1 ++ path :: l2) as [|a l] eqn:Hfiles; [by destruct l1|].
  rewrite Hproc. split.
  - intros ->. reflexivity.
  - intros args' Hne ->. by destruct (l1 ++ l2).
Qed.

Lemma unsupported_file_skipped_witness :
  (["a.xml"] ++ ["c.txt"] = [] ->
   main sample_fs ["a.xml"; "d.csv"; "c.txt"] =
     match write_output sample_fs [] with
     | Raise e => Uncaught e
     | Ok _ => Written []
     end) /\
  (forall args', ["a.xml"] ++ ["c.txt"] <> [] ->
                 parse_args sample_fs args' = inr (["a.xml"] ++ ["c.txt"]) ->
                 main sample_fs ["a.xml"; "d.csv"; "c.txt"] = main sample_fs args').
Proof.
  apply (unsupported_file_skipped sample_fs ["a.xml"; "d.csv"; "c.txt"]
           ["a.xml"] ["c.txt"] "d.csv"); reflexivity.
Defined.

Example unsupported_file_sample :
  main sample_fs ["a.xml"; "d.csv"; "c.txt"] = main sample_fs ["a.xml"; "c.txt"] /\
  main sample_fs ["d.csv"] = Written [].
Proof. split; vm_compute; reflexivity. Qed.

Lemma process_Raise_inv fs paths acc e :
  process fs paths acc = Raise e ->
  exists path, path ∈ paths /\ parse_file fs path = Raise e.
Proof.
  revert acc. induction paths as [|p paths IH]; intros acc; simpl; [done|].
  destruct (parse_file fs p) as [r|e'] eqn:Hp; simpl.
  - intros (path & Hin & H)%IH. exists path. split; [by right|done].
  - intros [= ->]. exists p. split; [left|done].
Qed.

(** Once [parse_args] has returned the files, [main] calls [sys.exit(1)]
    exactly when there is no file or processing one of the files raises
    an exception. *)
Theorem main_exit_1_iff
    (fs : filesystem) (args files : list string) :
  parse_args fs args = inr files ->
  (main fs args = Exit 1 <->
   files = [] \/ exists path e, path ∈ files /\ parse_file fs path = Raise e).
Proof.
  intros Hargs. split.
  - unfold main. rewrite Hargs. destruct files as [|a files]; [by left|].
    destruct (process fs (a :: files) []) as [recs|e] eqn:Hp.
    + destruct (list_sort zip_key recs) as [out|]; [|done].
      by destruct (write_output fs out).
    + intros _. right. apply process_Raise_inv in Hp as (path & Hin & H). eauto.
  - intros [->|(path & e & Hin & H)].
    + unfold main. by rewrite Hargs.
    + apply (main_Exit_1 fs args files path Hargs Hin). by rewrite H.
Qed.

Lemma main_exit_1_iff_witness :
  main sample_fs ["a.xml"; "empty.txt"] = Exit 1 <->
  ["a.xml"; "empty.txt"] = [] \/
  exists path e, path ∈ ["a.xml"; "empty.txt"] /\
                 parse_file sample_fs path = Raise e.
Proof.
  apply (main_exit_1_iff sample_fs ["a.xml"; "empty.txt"] ["a.xml"; "empty.txt"]).
  reflexivity.
Defined.

(** The only exception that escapes [main] is one raised while
    [output.json] is written: every record the parsers return has a string
    under [zip], so the sort never meets keys that do not compare. *)
Theorem main_uncaught_only_from_write
    (fs : filesystem) (args : list string) (e : exn) :
  main fs args = Uncaught e ->
  exists out, write_output fs out = Raise e.
Proof.
  unfold main. destruct (parse_args fs args) as [code|files]; [done|].
  destruct files as [|a files]; [done|].
  destruct (process fs (a :: files) []) as [recs|] eqn:Hp; [|done].
  apply process_spec in Hp as (pf & Hpf & ->). rewrite app_nil_l.
  destruct (list_sort_total zip_key _ (combined_zip_str _ _ _ Hpf)) as [out ->].
  destruct (write_output fs out) as [|e'] eqn:Hw; [done|].
  intros [= ->]. eauto.
Qed.

Lemma main_uncaught_only_from_write_witness :
  main readonly_fs ["a.xml"] = Uncaught OSError /\
  exists out, write_output readonly_fs out = Raise OSError.
Proof.
  split; [vm_compute; reflexivity|].
  apply (main_uncaught_only_from_write readonly_fs ["a.xml"] OSError).
  vm_compute. reflexivity.
Defined.

(** ** The keys of a record *)

Ltac in_list := solve [repeat first [left | right]].

Ltac key_cases Hv :=
  repeat match type of Hv with
  | (<[?k0 := _]> _) !! ?k = Some _ =>
      destruct (decide (k = k0)) as [->|];
      [in_list | rewrite lookup_insert_ne in Hv by done]
  | ∅ !! _ = Some _ => by rewrite lookup_empty in Hv
  end.

Ltac split_ifs_in Hv :=
  repeat match type of Hv with
  | context [if ?b then _ else _] => destruct b eqn:?
  end.

Lemma parse_ent_schema ent r :
  parse_ent ent = Ok r ->
  (forall k, k ∈ required_keys -> exists s, r !! k = Some (PyStr s)) /\
  (forall k, is_Some (r !! k) -> k ∈ canonical_keys).
Proof.
  intros H. unfold parse_ent in H. inv_result; subst.
  all: split; [intros k Hk; pick_key Hk; split_ifs; simplify_map_eq; eauto|].
  all: intros k [v Hv]; split_ifs_in Hv; key_cases Hv.
Qed.

Lemma parse_tsv_row_schema row r :
  parse_tsv_row row = Ok r ->
  (forall k, k ∈ required_keys -> exists s, r !! k = Some (PyStr s)) /\
  (forall k, is_Some (r !! k) -> k ∈ canonical_keys).
Proof.
  intros H. unfold parse_tsv_row in H. inv_result; subst.
  all: split; [intros k Hk; pick_key Hk; simplify_map_eq; eauto|].
  all: intros k [v Hv]; key_cases Hv.
Qed.

Lemma parse_block_schema block r :
  parse_block block = Ok r ->
  (forall k, k ∈ required_keys -> exists s, r !! k = Some (PyStr s)) /\
  (forall k, is_Some (r !! k) -> k ∈ canonical_keys).
Proof.
  intros H. unfold parse_block in H. inv_result; simplify_eq.
  all: split; [intros k Hk; pick_key Hk; split_ifs; simplify_map_eq; eauto|].
  all: intros k [v Hv]; split_ifs_in Hv; key_cases Hv.
Qed.

(** Every record of the output has a string under each of [street],
    [city], [state] and [zip], and no key beyond the eight of the
    canonical record. *)
Theorem output_record_schema
    (fs : filesystem) (args : list string) (out : list record) (r : record) :
  main fs args = Written out ->
  r ∈ out ->
  (forall k, k ∈ required_keys -> exists s, r !! k = Some (PyStr s)) /\
  (forall k, is_Some (r !! k) -> k ∈ canonical_keys).
Proof.
  intros (files & per_file & _ & _ & Hpf & Hs)%main_Written_inv Hr.
  rewrite (list_sort_perm _ _ _ Hs) in Hr.
  destruct (elem_of_combined _ _ _ _ Hpf Hr) as (path & rs & _ & Hp & Hin).
  apply parse_file_Some in Hp
    as [(_ & x & _ & H)|[(_ & x & _ & H)|(_ & x & _ & H)]];
    destruct (for_each_Ok_elem _ _ _ _ H Hin) as (y & _ & Hy).
  - by eapply parse_ent_schema.
  - by eapply parse_tsv_row_schema.
  - by eapply parse_block_schema.
Qed.

Lemma output_record_schema_witness :
  (forall k, k ∈ required_keys -> exists s, acme_record !! k = Some (PyStr s)) /\
  (forall k, is_Some (acme_record !! k) -> k ∈ canonical_keys).
Proof.
  apply (output_record_schema sample_fs sample_args sample_sorted acme_record).
  - vm_compute. reflexivity.
  - do 4 right. left.
Defined.

(** ** When a markup entity parses *)

Lemma find_text_strip_or_is_ok t d ent :
  is_ok (find_text_strip_or t d ent) = true <-> is_Some (find t ent).
Proof.
  unfold find_text_strip_or, text_of. destruct (find t ent) as [c|]; simpl.
  - split; [eauto|]. intros _. by destruct (text c) as [|[|??]].
  - split; [done|]. by intros [? [=]].
Qed.

Lemma extra_street_Ok t ent l :
  extra_street t ent = Ok l ->
  (find t ent = None \/ has_text t ent) /\ l = extra_line t ent.
Proof.
  unfold extra_street, extra_line, has_text, child_text.
  destruct (find t ent) as [c|]; [|intros [= <-]; eauto].
  destruct (text c) as [|s] eqn:Ht; simpl; [done|].
  intros H. split; [right; eauto|].
  destruct (nonempty (strip s)); simpl in H; by injection H.
Qed.

Lemma text_of_Ok x v : text_of x = Ok v -> exists c, x = Some c /\ text c = v.
Proof. destruct x as [c|]; simpl; [|done]. intros [= <-]. eauto. Qed.

Lemma parse_ent_Ok_well_formed ent r :
  parse_ent ent = Ok r ->
  is_Some (find "NAME" ent) /\ is_Some (find "COMPANY" ent) /\ rest_well_formed ent.
Proof.
  intros H. unfold parse_ent in H. inv_result; subst.
  all: repeat match goal with
       | H : find_text_strip_or ?t ?d ?e = Ok _ |- _ =>
           assert (is_Some (find t e))
             by (apply (find_text_strip_or_is_ok t d); by rewrite H);
           clear H
       | H : find_text_strip _ _ = Ok _ |- _ =>
           apply find_text_strip_Ok in H as (? & H & _)
       | H : extra_street _ _ = Ok _ |- _ => apply extra_street_Ok in H as [H _]
       | H : text_of _ = Ok _ |- _ => apply text_of_Ok in H as (? & H & _)
       end.
  all: unfold rest_well_formed, has_text; split_and!; eauto.
Qed.

(** An entity parses exactly when [NAME], [COMPANY] and [COUNTRY] are
    among its children, [STREET], [CITY], [STATE] and [POSTAL_CODE] are
    there with a text, and [STREET_2] and [STREET_3] are absent or have a
    text. *)
Theorem xml_parses_iff_well_formed (ent : Element) :
  (exists r, parse_ent ent = Ok r) <->
  is_Some (find "NAME" ent) /\ is_Some (find "COMPANY" ent) /\
  rest_well_formed ent.
Proof.
  split.
  - intros [r Hr]. by eapply parse_ent_Ok_well_formed.
  - intros (Hn & Hc & Hrest).
    apply parse_ent_total; [by apply find_text_strip_or_is_ok..|done].
Qed.

Ltac inv_raise :=
  repeat match goal with
  | H : Raise _ = Raise _ |- _ => injection H as H
  | H : Ok _ = Raise _ |- _ => discriminate H
  | H : mbind _ ?m = Raise _ |- _ =>
      let E := fresh "E" in destruct m eqn:E; simpl in H
  | H : match ?m with Ok _ => _ | Raise _ => _ end = Raise _ |- _ =>
      let E := fresh "E" in destruct m eqn:E; simpl in H
  | H : (if ?b then _ else _) = Raise _ |- _ =>
      let E := fresh "E" in destruct b eqn:E; simpl in H
  | H : (let '(_, _) := ?p in _) = Raise _ |- _ => destruct p; simpl in H
  end.

Lemma text_of_Raise x e : text_of x = Raise e -> e = AttributeError.
Proof. destruct x; simpl; [done|]. by intros [= <-]. Qed.

Lemma strip_val_Raise v e : strip_val v = Raise e -> e = AttributeError.
Proof. destruct v; simpl; [|done]. by intros [= <-]. Qed.

Lemma find_text_strip_Raise t ent e :
  find_text_strip t ent = Raise e -> e = AttributeError.
Proof.
  unfold find_text_strip. intros H. inv_raise; subst.
  - by eapply strip_val_Raise.
  - by eapply text_of_Raise.
Qed.

Lemma find_text_strip_or_Raise t d ent e :
  find_text_strip_or t d ent = Raise e -> e = AttributeError.
Proof.
  unfold find_text_strip_or. intros H. inv_raise; subst.
  - by eapply strip_val_Raise.
  - by eapply text_of_Raise.
Qed.

Lemma extra_street_Raise t ent e :
  extra_street t ent = Raise e -> e = AttributeError.
Proof.
  unfold extra_street. destruct (find t ent) as [c|]; [|done].
  intros H. inv_raise; subst; by eapply strip_val_Raise.
Qed.

Lemma getitem_list_split_Raise sep s e :
  sep <> "" -> getitem_list (split sep s) 0 <> Raise e.
Proof. intros Hsep. by destruct (split_nonempty sep s Hsep) as (z & l & ->). Qed.

Lemma parse_ent_Raise ent e : parse_ent ent = Raise e -> e = AttributeError.
Proof.
  intros H. unfold parse_ent in H. inv_raise; subst.
  all: try match goal with
       | H : getitem_list (split _ _) 0 = Raise _ |- _ =>
           by apply getitem_list_split_Raise in H
       end.
  all: first [ by eapply strip_val_Raise | by eapply text_of_Raise
             | by eapply find_text_strip_Raise
             | by eapply find_text_strip_or_Raise
             | by eapply extra_street_Raise ].
Qed.

(** The only exception the markup parser raises on an entity is
    [AttributeError]. *)
Theorem xml_raises_only_attribute_error (root : Element) (e : exn) :
  parse_xml root = Raise e -> e = AttributeError.
Proof.
  unfold parse_xml. generalize (findall_descendants "ENT" root).
  intros l. induction l as [|ent l IH]; simpl; [done|].
  destruct (parse_ent ent) as [r|e'] eqn:Hr; simpl.
  - destruct (for_each parse_ent l); simpl; [done|].
    intros [= <-]. by apply IH.
  - intros [= <-]. by eapply parse_ent_Raise.
Qed.

Lemma xml_raises_only_attribute_error_witness : AttributeError = AttributeError.
Proof.
  apply (xml_raises_only_attribute_error
           (Elem "EXPORT" None [no_country_ent]) AttributeError).
  reflexivity.
Defined.

(** A [STREET_2] or [STREET_3] child without text (an empty element)
    makes the entity fail, although the child itself may be left out. *)
Theorem xml_empty_extra_street_raises (ent : Element) (t : string) :
  t ∈ ["STREET_2"; "STREET_3"] ->
  child_text t ent PyNone ->
  parse_ent ent = Raise AttributeError.
Proof.
  intros Ht (c & Hc & Htext).
  destruct (parse_ent ent) as [r|e] eqn:H.
  - exfalso. apply parse_ent_Ok_well_formed in H as (_ & _ & Hrest).
    destruct Hrest as (_ & _ & _ & _ & _ & H2 & H3).
    pick_key Ht.
    + destruct H2 as [H2|(s & c' & H2 & Hs)]; congruence.
    + destruct H3 as [H3|(s & c' & H3 & Hs)]; congruence.
  - f_equal. by eapply parse_ent_Raise.
Qed.

Lemma xml_empty_extra_street_raises_witness :
  parse_ent (Elem "ENT" None
    [leaf "NAME" "Ann Lee"; Elem "COMPANY" None []; leaf "STREET" "1 Main St";
     Elem "STREET_2" None []; leaf "CITY" "Atlanta"; leaf "STATE" "GA";
     leaf "POSTAL_CODE" "30301"; leaf "COUNTRY" "US"]) = Raise AttributeError.
Proof.
  apply (xml_empty_extra_street_raises _ "STREET_2").
  - left.
  - exists (Elem "STREET_2" None []). split; reflexivity.
Defined.

(** ** Street, zip and identity of a markup entity *)

(** The [street] of a markup record is the trimmed [STREET] text followed
    by the trimmed, non-empty texts of [STREET_2] and [STREET_3], joined
    by single spaces. *)
Theorem xml_street_joined (ent : Element) (r : record) :
  parse_ent ent = Ok r ->
  exists s1,
    child_text "STREET" ent (PyStr s1) /\
    r !! "street" =
      Some (PyStr (join " " (strip s1 ::
                     extra_line "STREET_2" ent ++ extra_line "STREET_3" ent))).
Proof.
  intros H. unfold parse_ent in H. inv_result; subst.
  all: repeat match goal with
       | H : extra_street _ _ = Ok _ |- _ => apply extra_street_Ok in H as [_ ->]
       end.
  all: match goal with
       | H : find_text_strip "STREET" _ = Ok _ |- _ =>
           apply find_text_strip_Ok in H as (s1 & Hs1 & ->); exists s1
       end.
  all: split; [done|]; split_ifs; by simplify_map_eq.
Qed.

Lemma xml_street_joined_witness :
  exists s1,
    child_text "STREET" sample_ent (PyStr s1) /\
    ann_record !! "street" =
      Some (PyStr (join " " (strip s1 :: extra_line "STREET_2" sample_ent
                               ++ extra_line "STREET_3" sample_ent))).
Proof.
  apply (xml_street_joined sample_ent ann_record). vm_compute. reflexivity.
Defined.

Lemma app_length_str s t :
  String.length (s +:+ t) = String.length s + String.length t.
Proof. induction s as [|c s IH]; [done|]. rewrite app_cons. simpl. by rewrite IH. Qed.

Lemma parse_ent_zip ent r :
  parse_ent ent = Ok r ->
  exists pc z, split " -" pc !! 0 = Some z /\ r !! "zip" = Some (PyStr z).
Proof.
  intros H. unfold parse_ent in H. inv_result; subst.
  all: match goal with
       | H : getitem_list (split _ ?pc) 0 = Ok ?z0 |- _ =>
           apply getitem_list_Ok in H; exists pc, z0
       end.
  all: split; [done|]; split_ifs; by simplify_map_eq.
Qed.

(** The [zip] of a markup record never contains [" -"]. *)
Theorem xml_zip_has_no_space_hyphen (ent : Element) (r : record) (z : string) :
  parse_ent ent = Ok r ->
  r !! "zip" = Some (PyStr z) ->
  forall a b, z <> a +:+ " -" +:+ b.
Proof.
  intros (pc & z0 & Hsplit & Hz0)%parse_ent_zip Hz.
  rewrite Hz0 in Hz. injection Hz as ->.
  destruct (split_head " -" pc z ltac:(done) Hsplit)
    as [[-> Hn]|(rest & Hpc & Hmin)]; [exact Hn|].
  intros a b ->.
  rewrite !app_assoc_str in Hpc. apply Hmin in Hpc.
  rewrite !app_length_str in Hpc. simpl in Hpc. lia.
Qed.

Lemma xml_zip_has_no_space_hyphen_witness :
  ann_record !! "zip" = Some (PyStr "30301") /\
  forall a b, "30301" <> a +:+ " -" +:+ b.
Proof.
  split; [vm_compute; reflexivity|].
  apply (xml_zip_has_no_space_hyphen sample_ent ann_record "30301").
  - vm_compute. reflexivity.
  - vm_compute. reflexivity.
Defined.

Lemma find_text_strip_or_text t ent s x :
  child_text t ent (PyStr s) -> find_text_strip_or t "" ent = Ok x -> x = strip s.
Proof.
  intros (c & Hc & Ht). unfold find_text_strip_or. rewrite Hc. simpl. rewrite Ht.
  destruct s as [|a s]; simpl; by intros [= <-].
Qed.

(** When the [NAME] text is not empty after trimming it becomes the
    [name], whatever [COMPANY] holds, and no [organization] is stored. *)
Theorem xml_name_wins (ent : Element) (r : record) (tn : string) :
  parse_ent ent = Ok r ->
  child_text "NAME" ent (PyStr tn) ->
  strip tn <> "" ->
  r !! "name" = Some (PyStr (strip tn)) /\ r !! "organization" = None.
Proof.
  intros H Hn Hne. unfold parse_ent in H. inv_result; subst.
  all: match goal with
       | H : find_text_strip_or "NAME" "" _ = Ok _ |- _ =>
           apply (find_text_strip_or_text _ _ _ _ Hn) in H; subst
       end.
  all: apply nonempty_true in Hne; rewrite Hne, strip_idem.
  all: split_ifs; by simplify_map_eq.
Qed.

Lemma xml_name_wins_witness :
  ann_record !! "name" = Some (PyStr (strip " Ann Lee ")) /\
  ann_record !! "organization" = None.
Proof.
  apply (xml_name_wins sample_ent ann_record " Ann Lee ").
  - vm_compute. reflexivity.
  - exists (leaf "NAME" " Ann Lee "). split; reflexivity.
  - discriminate.
Defined.

(** When the [NAME] text is empty after trimming and the [COMPANY] text
    is not, the trimmed [COMPANY] text becomes the [organization] and no
    [name] is stored. *)
Theorem xml_company_when_name_blank
    (ent : Element) (r : record) (vn : pyval) (tc : string) :
  parse_ent ent = Ok r ->
  child_text "NAME" ent vn -> blank vn ->
  child_text "COMPANY" ent (PyStr tc) ->
  strip tc <> "" ->
  r !! "organization" = Some (PyStr (strip tc)) /\ r !! "name" = None.
Proof.
  intros H Hn Hb Hc Hne. unfold parse_ent in H.
  assert (find_text_strip_or "NAME" "" ent = Ok "") as Hname.
  { apply find_text_strip_or_blank. eauto. }
  rewrite Hname in H. simpl in H. inv_result; subst.
  all: match goal with
       | H : find_text_strip_or "COMPANY" "" _ = Ok _ |- _ =>
           apply (find_text_strip_or_text _ _ _ _ Hc) in H; subst
       end.
  all: apply nonempty_true in Hne; rewrite Hne.
  all: split_ifs; by simplify_map_eq.
Qed.

Lemma xml_company_when_name_blank_witness :
  company_record !! "organization" = Some (PyStr (strip " Acme Inc ")) /\
  company_record !! "name" = None.
Proof.
  apply (xml_company_when_name_blank company_ent company_record (PyStr " ") " Acme Inc ").
  - vm_compute. reflexivity.
  - exists (leaf "NAME" " "). split; reflexivity.
  - reflexivity.
  - exists (leaf "COMPANY" " Acme Inc "). split; reflexivity.
  - discriminate.
Defined.

(** ** The rows of a table *)

Lemma foldl_insert_lookup_notin {B} (f : B -> string * pyval) (l : list B)
    (d : gmap string pyval) k :
  Forall (fun b => (f b).1 <> k) l ->
  foldl (fun d b => <[(f b).1 := (f b).2]> d) d l !! k = d !! k.
Proof.
  revert d. induction l as [|b l IH]; simpl; intros d Hl; [done|].
  apply Forall_cons in Hl as [Hb Hl]. rewrite IH by done.
  by rewrite lookup_insert_ne.
Qed.

Lemma foldl_insert_lookup_in {B} (f : B -> string * pyval) (l : list B)
    (d : gmap string pyval) b :
  NoDup ((fun b => (f b).1) <$> l) -> b ∈ l ->
  foldl (fun d b => <[(f b).1 := (f b).2]> d) d l !! (f b).1 = Some (f b).2.
Proof.
  revert d. induction l as [|b0 l IH]; intros d Hnd Hin.
  - by apply elem_of_nil in Hin.
  - rewrite fmap_cons in Hnd. apply NoDup_cons in Hnd as [Hb0 Hnd]. simpl.
    apply elem_of_cons in Hin as [->|Hin].
    + rewrite foldl_insert_lookup_notin; [by rewrite lookup_insert_eq|].
      apply Forall_forall. intros b' Hb' Heq. apply Hb0.
      rewrite <- Heq. by apply (list_elem_of_fmap_2 (fun b => (f b).1)).
    + by apply IH.
Qed.

Lemma NoDup_zip_fst {A B} (l : list A) (k : list B) :
  NoDup l -> NoDup ((zip l k).*1).
Proof.
  intros Hl. revert k. induction Hl as [|x l Hx Hl IH]; intros [|y k]; simpl;
    try constructor; [|by apply IH].
  intros Hin. apply list_elem_of_fmap in Hin as ([x' y'] & -> & Hin).
  by apply elem_of_zip_l in Hin.
Qed.

(** What [csv.DictReader] gives for a header without repeated names: the
    cell of the column, or [None] when the row is too short to have it. *)
Theorem dict_row_lookup (fieldnames row : list string) (i : nat) (k : string) :
  NoDup fieldnames ->
  fieldnames !! i = Some k ->
  dict_row fieldnames row !! k =
  Some (match row !! i with Some v => PyStr v | None => PyNone end).
Proof.
  intros Hnd Hk. unfold dict_row.
  destruct (row !! i) as [v|] eqn:Hv.
  - rewrite (foldl_insert_lookup_notin (fun k => (k, PyNone))).
    + apply (foldl_insert_lookup_in (fun kv : string * string => (kv.1, PyStr kv.2))
               _ _ (k, v)).
      * by apply NoDup_zip_fst.
      * apply list_elem_of_lookup. exists i. by apply lookup_zip_Some.
    + apply Forall_forall. intros k' Hin Heq. simpl in Heq. subst k'.
      apply list_elem_of_lookup in Hin as [j Hj]. rewrite lookup_drop in Hj.
      pose proof (NoDup_lookup _ _ _ _ Hnd Hk Hj).
      apply lookup_lt_Some in Hv. lia.
  - apply lookup_ge_None in Hv.
    apply (foldl_insert_lookup_in (fun k => (k, PyNone)) _ _ k).
    + change (NoDup (id <$> drop (length row) fieldnames)).
      rewrite list_fmap_id. rewrite <- (take_drop (length row) fieldnames) in Hnd.
      by apply NoDup_app in Hnd as (_ & _ & ?).
    + apply list_elem_of_lookup. exists (i - length row).
      rewrite lookup_drop. by replace (length row + (i - length row)) with i by lia.
Qed.

Lemma dict_row_lookup_witness :
  dict_row sample_header ["Bo"; ""; "Diaz"] !! "last" =
    Some (match ["Bo"; ""; "Diaz"] !! 2 with Some v => PyStr v | None => PyNone end) /\
  dict_row sample_header ["Bo"; ""; "Diaz"] !! "zip" =
    Some (match ["Bo"; ""; "Diaz"] !! 8 with Some v => PyStr v | None => PyNone end).
Proof.
  assert (NoDup sample_header) as Hnd by (by apply (bool_decide_unpack _)).
  split.
  - apply (dict_row_lookup sample_header ["Bo"; ""; "Diaz"] 2 "last" Hnd). reflexivity.
  - apply (dict_row_lookup sample_header ["Bo"; ""; "Diaz"] 8 "zip" Hnd). reflexivity.
Defined.

(** ** When a row parses *)

Lemma getitem_Some d k v : d !! k = Some v -> getitem d k = Ok v.
Proof. unfold getitem. by intros ->. Qed.

Lemma get_Some d k v : d !! k = Some v -> get d k = v.
Proof. unfold get. by intros ->. Qed.

Lemma parse_tsv_row_Ok_well_formed row r :
  parse_tsv_row row = Ok r -> row_well_formed row.
Proof.
  intros H. unfold parse_tsv_row in H. inv_result; subst.
  all: repeat match goal with
       | H : getitem _ _ = Ok _ |- _ => apply getitem_Ok in H
       | H : strip_val ?v = Ok _ |- _ => apply strip_val_Ok in H as (? & -> & _)
       end.
  all: unfold row_well_formed, str_column; split_and!; eauto.
  all: try (intros Ho; first [by (split_and!; eauto) | by simplify_eq]).
  all: match goal with
       | Hn : ¬ get ?row "county" ≠ _ |- _ =>
           let Hs := fresh in
           pose proof (dec_stable Hn) as Hs; clear -Hs; unfold get in Hs;
           destruct (row !! "county") as [[|?]|]; simpl in Hs; simplify_eq; eauto
       end.
Qed.

Lemma row_well_formed_parses row :
  row_well_formed row -> exists r, parse_tsv_row row = Ok r.
Proof.
  intros ([o Ho] & Hnames & (a & Ha) & (c & Hc) & (ci & Hci) & (st & Hst)
          & (z & Hz) & [z4 Hz4]).
  unfold parse_tsv_row.
  rewrite (getitem_Some _ _ _ Ho), (getitem_Some _ _ _ Ha),
    (getitem_Some _ _ _ Hc), (getitem_Some _ _ _ Hci), (getitem_Some _ _ _ Hst),
    (getitem_Some _ _ _ Hz), (getitem_Some _ _ _ Hz4), (get_Some _ _ _ Hc).
  simpl. destruct z4 as [|[|? ?]]; simpl.
  all: repeat case_decide; simpl; eauto.
  all: subst o.
  all: destruct (Hnames Ho) as ((f & Hf) & (m & Hm) & (l & Hl)).
  all: rewrite (getitem_Some _ _ _ Hf), (getitem_Some _ _ _ Hm),
         (getitem_Some _ _ _ Hl); simpl; eauto.
Qed.

(** A row parses exactly when it has an [organization], the three name
    columns as strings when the organization is the sentinel, strings
    under [address], [county], [city], [state] and [zip], and a [zip4]. *)
Theorem tsv_row_parses_iff_well_formed (row : gmap string pyval) :
  (exists r, parse_tsv_row row = Ok r) <-> row_well_formed row.
Proof.
  split.
  - intros [r Hr]. by eapply parse_tsv_row_Ok_well_formed.
  - apply row_well_formed_parses.
Qed.

Lemma tsv_row_parses_iff_well_formed_witness :
  exists r,
    parse_tsv_row (dict_row sample_header
      ["Bo"; ""; "Diaz "; "N/A"; "2 Oak Ave"; "New York"; "NY"; ""; "10001"; "0001"])
    = Ok r.
Proof.
  apply (tsv_row_parses_iff_well_formed _).
  unfold row_well_formed, str_column.
  split_and!; try intros _; split_and?; eexists; vm_compute; reflexivity.
Defined.

(** A column that [parse_tsv] always reads and that the header does not
    have makes every row fail. *)
Theorem tsv_missing_column_raises
    (fieldnames cells : list string) (k : string) :
  k ∈ ["organization"; "address"; "county"; "city"; "state"; "zip"; "zip4"] ->
  k ∉ fieldnames ->
  exists e, parse_tsv_row (dict_row fieldnames cells) = Raise e.
Proof.
  intros Hk Hnot.
  pose proof (dict_row_lookup_None fieldnames cells k Hnot) as Hnone.
  destruct (parse_tsv_row (dict_row fieldnames cells)) as [r|e] eqn:H; [|eauto].
  exfalso. apply parse_tsv_row_Ok_well_formed in H
    as ([? Ho] & _ & [? Ha] & [? Hc] & [? Hci] & [? Hst] & [? Hz] & [? Hz4]).
  pick_key Hk; congruence.
Qed.

Lemma tsv_missing_column_raises_witness :
  exists e, parse_tsv_row (dict_row ["organization"; "address"; "county"; "city"; "state"; "zip"]
    ["Acme"; "3 Pine Rd"; ""; "Reno"; "NV"; "89501"]) = Raise e.
Proof.
  apply (tsv_missing_column_raises _ _ "zip4").
  - do 6 right. left.
  - rewrite !elem_of_cons, elem_of_nil. intros H.
    repeat (destruct H as [H|H]; [discriminate H|]). exact H.
Defined.

Lemma getitem_Raise d k e :
  getitem d k = Raise e -> e = KeyError k /\ d !! k = None.
Proof. unfold getitem. destruct (d !! k); [done|]. by intros [= <-]. Qed.

Lemma strip_val_Raise_None v e :
  strip_val v = Raise e -> v = PyNone /\ e = AttributeError.
Proof. destruct v; simpl; [|done]. by intros [= <-]. Qed.

(** A row fails either with a [KeyError] that names a column the row does
    not have, or with an [AttributeError] because a column holds [None]
    (the row is shorter than the header). *)
Theorem tsv_row_errors (row : gmap string pyval) (e : exn) :
  parse_tsv_row row = Raise e ->
  (exists k, e = KeyError k /\ row !! k = None) \/
  (e = AttributeError /\ exists k, row !! k = Some PyNone).
Proof.
  intros H. unfold parse_tsv_row in H. inv_raise; subst.
  all: repeat match goal with
       | H : getitem _ _ = Ok _ |- _ => apply getitem_Ok in H
       | H : getitem _ _ = Raise _ |- _ => apply getitem_Raise in H as [-> H]
       | H : strip_val _ = Raise _ |- _ =>
           apply strip_val_Raise_None in H as [-> ->]
       end.
  all: eauto.
Qed.

Lemma tsv_row_errors_witness :
  (exists k, KeyError "county" = KeyError k /\
     dict_row ["first"; "middle"; "last"; "organization"; "address"; "city"; "state"; "zip"; "zip4"]
       ["Bo"; ""; "Diaz"; "N/A"; "2 Oak Ave"; "New York"; "NY"; "10001"; "0001"] !! k = None) \/
  (KeyError "county" = AttributeError /\
   exists k, dict_row ["first"; "middle"; "last"; "organization"; "address"; "city"; "state"; "zip"; "zip4"]
       ["Bo"; ""; "Diaz"; "N/A"; "2 Oak Ave"; "New York"; "NY"; "10001"; "0001"] !! k = Some PyNone).
Proof.
  apply (tsv_row_errors _ (KeyError "county")). vm_compute. reflexivity.
Defined.

(** An [organization] other than the sentinel ["N/A"] (compared as it is
    in the row, untrimmed) is stored as it is, and no [name] is built. *)
Theorem tsv_organization_verbatim (row r : record) (o : pyval) :
  parse_tsv_row row = Ok r ->
  row !! "organization" = Some o ->
  o <> PyStr "N/A" ->
  r !! "organization" = Some o /\ r !! "name" = None.
Proof.
  intros H Ho Hne. unfold parse_tsv_row in H.
  rewrite (getitem_Some _ _ _ Ho) in H. simpl in H.
  repeat case_decide; try done; simpl in H.
  all: inv_result; subst; by simplify_map_eq.
Qed.

Lemma tsv_organization_verbatim_witness :
  acme_record !! "organization" = Some (PyStr " Acme ") /\
  acme_record !! "name" = None.
Proof.
  apply (tsv_organization_verbatim
    (dict_row sample_header
       [""; ""; ""; " Acme "; "3 Pine Rd"; "San Francisco"; "CA"; "MARIN"; " 94105"; ""])).
  - vm_compute. reflexivity.
  - vm_compute. reflexivity.
  - discriminate.
Defined.

(** For the sentinel ["N/A"] the [name] is made of the trimmed [first],
    [middle] and [last] cells that are not empty, joined by single
    spaces, and no [organization] is stored. *)
Theorem tsv_person_name (row r : record) (f m l : string) :
  parse_tsv_row row = Ok r ->
  row !! "organization" = Some (PyStr "N/A") ->
  row !! "first" = Some (PyStr f) ->
  row !! "middle" = Some (PyStr m) ->
  row !! "last" = Some (PyStr l) ->
  r !! "name" =
    Some (PyStr (join " " (List.filter nonempty [strip f; strip m; strip l]))) /\
  r !! "organization" = None.
Proof.
  intros H Ho Hf Hm Hl. unfold parse_tsv_row in H.
  rewrite (getitem_Some _ _ _ Ho), (getitem_Some _ _ _ Hf),
    (getitem_Some _ _ _ Hm), (getitem_Some _ _ _ Hl) in H.
  simpl in H. repeat case_decide; try done; simpl in H.
  all: inv_result; subst; by simplify_map_eq.
Qed.

Lemma tsv_person_name_witness :
  bo_record !! "name" =
    Some (PyStr (join " " (List.filter nonempty [strip "Bo"; strip ""; strip "Diaz "]))) /\
  bo_record !! "organization" = None.
Proof.
  apply (tsv_person_name
    (dict_row sample_header
       ["Bo"; ""; "Diaz "; "N/A"; "2 Oak Ave"; "New York"; "NY"; ""; "10001"; "0001"])).
  all: vm_compute; reflexivity.
Defined.

(** ** Blocks of text *)

(** A text that is empty after trimming (empty, or white space only)
    makes [parse_txt] raise [IndexError]. *)
Theorem txt_blank_content_raises (content : string) :
  strip content = "" -> parse_txt content = Raise IndexError.
Proof. intros H. unfold parse_txt. rewrite H. reflexivity. Qed.

Lemma txt_blank_content_raises_witness :
  parse_txt (" " +:+ NL +:+ NL +:+ " ") = Raise IndexError.
Proof. apply (txt_blank_content_raises (" " +:+ NL +:+ NL +:+ " ")). reflexivity. Defined.

(** A text file never contributes zero records: [parse_txt] returns at
    least one record or raises. *)
Theorem txt_never_empty (content : string) (rs : list record) :
  parse_txt content = Ok rs -> rs <> [].
Proof.
  unfold parse_txt.
  destruct (split_nonempty (NL +:+ NL) (strip content)) as (b & l & ->); [done|].
  simpl. intros H. inv_result. by subst.
Qed.

Lemma txt_never_empty_witness :
  parse_txt sample_text = Ok [doe_record; cy_record] /\
  [doe_record; cy_record] <> [].
Proof.
  split; [vm_compute; reflexivity|].
  apply (txt_never_empty sample_text). vm_compute. reflexivity.
Defined.

Lemma getitem_list_Some {A} (l : list A) i x :
  l !! i = Some x -> getitem_list l i = Ok x.
Proof. unfold getitem_list. by intros ->. Qed.

Lemma parse_block_county block r :
  parse_block block = Ok r ->
  exists l2, split NL block !! 2 = Some l2 /\
    r !! "county" =
      if contains "COUNTY" l2
      then Some (PyStr (strip (replace "COUNTY" "" l2))) else None.
Proof.
  intros H. unfold parse_block in H. inv_result; simplify_eq.
  all: repeat match goal with
       | H : getitem_list _ _ = Ok _ |- _ => apply getitem_list_Ok in H
       end.
  all: simplify_eq.
  all: eexists; split; [eassumption|].
  all: match goal with H : contains "COUNTY" _ = _ |- _ => rewrite H end.
  all: split_ifs; by simplify_map_eq.
Qed.

(** The third line of a block decides the [county]: when it contains
    [COUNTY], the county is that line without [COUNTY], trimmed; else the
    record has no [county]. *)
Theorem txt_county_detection (block : string) (r : record) (l2 : string) :
  parse_block block = Ok r ->
  split NL block !! 2 = Some l2 ->
  (contains "COUNTY" l2 = true ->
   r !! "county" = Some (PyStr (strip (replace "COUNTY" "" l2)))) /\
  (contains "COUNTY" l2 = false -> r !! "county" = None).
Proof.
  intros (l2' & Hl2 & Hc)%parse_block_county Hl. rewrite Hl in Hl2.
  injection Hl2 as <-. rewrite Hc. split; by intros ->.
Qed.

Lemma txt_county_detection_witness :
  (contains "COUNTY" "Atlanta, GA  30301" = true ->
   two_space_record !! "county" =
     Some (PyStr (strip (replace "COUNTY" "" "Atlanta, GA  30301")))) /\
  (contains "COUNTY" "Atlanta, GA  30301" = false ->
   two_space_record !! "county" = None).
Proof.
  apply (txt_county_detection two_space_block).
  - vm_compute. reflexivity.
  - vm_compute. reflexivity.
Defined.

Lemma parse_block_Ok_line block r :
  parse_block block = Ok r ->
  exists line p1,
    city_state_zip_line block = Some line /\
    split "," line !! 1 = Some p1 /\
    is_Some (split " " (strip p1) !! 1).
Proof.
  intros H. unfold parse_block in H. inv_result; simplify_eq.
  all: repeat match goal with
       | H : getitem_list _ _ = Ok _ |- _ => apply getitem_list_Ok in H
       end.
  all: unfold city_state_zip_line.
  all: match goal with
       | H : split NL _ !! 2 = Some _ |- _ => rewrite H; simpl
       end.
  all: match goal with H : contains "COUNTY" _ = _ |- _ => rewrite H end.
  all: do 2 eexists; split_and!; eauto.
Qed.

Lemma parse_block_line_Ok block line p1 :
  city_state_zip_line block = Some line ->
  split "," line !! 1 = Some p1 ->
  is_Some (split " " (strip p1) !! 1) ->
  exists r, parse_block block = Ok r.
Proof.
  unfold city_state_zip_line. intros Hline Hp1 [s1 Hs1].
  destruct (split NL block !! 2) as [l2|] eqn:Hl2; [|done]. simpl in Hline.
  destruct (lookup_lt_is_Some_2 (split NL block) 0) as [l0 Hl0].
  { apply lookup_lt_Some in Hl2. lia. }
  destruct (lookup_lt_is_Some_2 (split NL block) 1) as [l1 Hl1].
  { apply lookup_lt_Some in Hl2. lia. }
  destruct (lookup_lt_is_Some_2 (split "," line) 0) as [p0 Hp0].
  { apply lookup_lt_Some in Hp1. lia. }
  destruct (lookup_lt_is_Some_2 (split " " (strip p1)) 0) as [s0 Hs0].
  { apply lookup_lt_Some in Hs1. lia. }
  unfold parse_block.
  rewrite (getitem_list_Some _ _ _ Hl0), (getitem_list_Some _ _ _ Hl1),
    (getitem_list_Some _ _ _ Hl2). simpl.
  destruct (contains "COUNTY" l2); simpl.
  - rewrite (getitem_list_Some _ _ _ Hline). simpl.
    rewrite (getitem_list_Some _ _ _ Hp0), (getitem_list_Some _ _ _ Hp1). simpl.
    rewrite (getitem_list_Some _ _ _ Hs0), (getitem_list_Some _ _ _ Hs1). simpl.
    eauto.
  - injection Hline as ->.
    rewrite (getitem_list_Some _ _ _ Hp0), (getitem_list_Some _ _ _ Hp1). simpl.
    rewrite (getitem_list_Some _ _ _ Hs0), (getitem_list_Some _ _ _ Hs1). simpl.
    eauto.
Qed.

(** A block parses exactly when it has a city/state/zip line (the third
    line, or the fourth when the third contains [COUNTY]), that line has a
    part after its first comma, and that part, trimmed, has a piece after
    its first space. *)
Theorem txt_block_parses_iff (block : string) :
  (exists r, parse_block block = Ok r) <->
  exists line p1,
    city_state_zip_line block = Some line /\
    split "," line !! 1 = Some p1 /\
    is_Some (split " " (strip p1) !! 1).
Proof.
  split.
  - intros [r Hr]. by eapply parse_block_Ok_line.
  - intros (line & p1 & Hline & Hp1 & Hs1). by eapply parse_block_line_Ok.
Qed.

Lemma getitem_list_Raise {A} (l : list A) i e :
  getitem_list l i = Raise e -> e = IndexError /\ length l <= i.
Proof.
  unfold getitem_list. destruct (l !! i) eqn:H; [done|].
  intros [= <-]. split; [done|]. by apply lookup_ge_None.
Qed.

Lemma parse_block_Raise block e : parse_block block = Raise e -> e = IndexError.
Proof.
  intros H. unfold parse_block in H. inv_raise; simplify_eq.
  all: repeat match goal with
       | H : getitem_list _ _ = Raise _ |- _ => apply getitem_list_Raise in H as [-> _]
       end; done.
Qed.

(** The only exception the block-text parser raises is [IndexError]. *)
Theorem txt_raises_only_index_error (content : string) (e : exn) :
  parse_txt content = Raise e -> e = IndexError.
Proof.
  unfold parse_txt. generalize (split (NL +:+ NL) (strip content)).
  intros l. induction l as [|b l IH]; simpl; [done|].
  destruct (parse_block b) as [r|e'] eqn:Hr; simpl.
  - destruct (for_each parse_block l); simpl; [done|].
    intros [= <-]. by apply IH.
  - intros [= <-]. by eapply parse_block_Raise.
Qed.

Lemma txt_raises_only_index_error_witness : IndexError = IndexError.
Proof. apply (txt_raises_only_index_error ""). reflexivity. Defined.

(** A block of fewer than three lines raises [IndexError]. *)
Theorem txt_short_block_raises (block : string) :
  length (split NL block) < 3 -> parse_block block = Raise IndexError.
Proof.
  intros Hlen. destruct (parse_block block) as [r|e] eqn:H.
  - exfalso. apply parse_block_Ok_line in H as (line & _ & Hline & _).
    unfold city_state_zip_line in Hline.
    destruct (split NL block !! 2) eqn:Hl2; [|done].
    apply lookup_lt_Some in Hl2. lia.
  - f_equal. by eapply parse_block_Raise.
Qed.

Lemma txt_short_block_raises_witness :
  parse_block ("Cy Young" +:+ NL +:+ "5 Lake Dr") = Raise IndexError.
Proof.
  apply (txt_short_block_raises ("Cy Young" +:+ NL +:+ "5 Lake Dr")).
  vm_compute. lia.
Defined.

(** ** Separators never stay in the fields of a block *)

Lemma startswith_char c a s :
  startswith (String c "") (String a s) = if ascii_dec c a then true else false.
Proof. unfold startswith. simpl. destruct (ascii_dec c a); [by destruct s|done]. Qed.

Lemma contains_char_cons c a s :
  contains (String c "") (String a s) =
  (if ascii_dec c a then true else false) || contains (String c "") s.
Proof. change (contains (String c "") (String a s))
  with (startswith (String c "") (String a s) || contains (String c "") s).
  by rewrite startswith_char.
Qed.

Lemma contains_char_app c s a :
  contains (String c "") s = false -> c <> a ->
  contains (String c "") (s +:+ String a "") = false.
Proof.
  intros Hs Hne. induction s as [|b s IH].
  - rewrite app_empty_l, contains_char_cons. by destruct (ascii_dec c a).
  - rewrite app_cons, contains_char_cons. rewrite contains_char_cons in Hs.
    apply orb_false_iff in Hs as [-> Hs]. by rewrite IH.
Qed.

Lemma contains_char_lstrip c s :
  contains (String c "") s = false -> contains (String c "") (lstrip s) = false.
Proof.
  induction s as [|a s IH]; [done|]. rewrite lstrip_cons.
  destruct (isspace a); [|done]. rewrite contains_char_cons.
  intros [_ Hs]%orb_false_iff. by apply IH.
Qed.

Lemma contains_char_rstrip c s :
  contains (String c "") s = false -> contains (String c "") (rstrip s) = false.
Proof.
  induction s as [|a s IH]; [done|]. rewrite rstrip_cons, contains_char_cons.
  intros [Ha Hs]%orb_false_iff. specialize (IH Hs).
  destruct (rstrip s) as [|b r].
  - destruct (isspace a); [done|]. by rewrite contains_char_cons, Ha.
  - by rewrite contains_char_cons, Ha, IH.
Qed.

Lemma contains_char_strip c s :
  contains (String c "") s = false -> contains (String c "") (strip s) = false.
Proof. intros H. by apply contains_char_rstrip, contains_char_lstrip. Qed.

Lemma replace_char_none c s :
  contains (String c "") (replace (String c "") "" s) = false.
Proof.
  unfold replace. induction s as [|a s IH]; [done|].
  change (replace_go (String c "") "" 0 (String a s))
    with (if startswith (String c "") (String a s)
          then "" +:+ replace_go (String c "") "" 0 s
          else String a (replace_go (String c "") "" 0 s)).
  rewrite startswith_char. destruct (ascii_dec c a) as [|Hne] eqn:Hd.
  - by rewrite app_empty_l.
  - by rewrite contains_char_cons, Hd, IH.
Qed.

Lemma split_char_pieces c s cur :
  contains (String c "") cur = false ->
  Forall (fun p => contains (String c "") p = false)
    (split_go (String c "") 0 cur s).
Proof.
  revert cur. induction s as [|a s IH]; intros cur Hcur.
  - by constructor.
  - change (split_go (String c "") 0 cur (String a s))
      with (if startswith (String c "") (String a s)
            then cur :: split_go (String c "") 0 "" s
            else split_go (String c "") 0 (cur +:+ String a "") s).
    rewrite startswith_char. destruct (ascii_dec c a) as [|Hne].
    + constructor; [done|]. by apply IH.
    + apply IH. by apply contains_char_app.
Qed.

Lemma split_char_lookup c s i p :
  split (String c "") s !! i = Some p -> contains (String c "") p = false.
Proof.
  intros H. pose proof (split_char_pieces c s "" eq_refl) as Hall.
  by eapply Forall_lookup_1 in Hall.
Qed.

(** In a record of a block the [name] and the [city] contain no comma,
    and the [state] and the [zip] contain no space. *)
Theorem txt_fields_free_of_separators (block : string) (r : record) (k s : string) :
  parse_block block = Ok r ->
  r !! k = Some (PyStr s) ->
  (k ∈ ["name"; "city"] -> contains "," s = false) /\
  (k ∈ ["state"; "zip"] -> contains " " s = false).
Proof.
  intros H Hs. unfold parse_block in H. inv_result; simplify_eq.
  all: repeat match goal with
       | H : getitem_list (split _ _) _ = Ok _ |- _ =>
           apply getitem_list_Ok in H; pose proof (split_char_lookup _ _ _ _ H)
       end.
  all: split; intros Hk; pick_key Hk.
  all: revert Hs; split_ifs; simplify_map_eq; intros; simplify_eq.
  all: first [ apply replace_char_none | by apply contains_char_strip ].
Qed.

Lemma txt_fields_free_of_separators_witness :
  ("zip" ∈ ["name"; "city"] -> contains "," "30301" = false) /\
  ("zip" ∈ ["state"; "zip"] -> contains " " "30301" = false).
Proof.
  apply (txt_fields_free_of_separators
    ("Cy Young" +:+ NL +:+ "5 Lake Dr" +:+ NL +:+ "FULTON COUNTY" +:+ NL
       +:+ "Atlanta, GA 30301") cy_record "zip" "30301").
  - vm_compute. reflexivity.
  - vm_compute. reflexivity.
Defined.

(** ** One record per entry, in order *)

Lemma for_each_Forall2 {A B} (f : A -> result B) l ys :
  for_each f l = Ok ys -> Forall2 (fun x y => f x = Ok y) l ys.
Proof.
  revert ys. induction l as [|x l IH]; simpl; intros ys H.
  - injection H as <-. constructor.
  - inv_result; subst. constructor; [done|]. by apply IH.
Qed.

(** The markup parser returns one record for each [ENT] element below the
    root, at any depth, in document order. *)
Theorem xml_one_record_per_entity (root : Element) (rs : list record) :
  parse_xml root = Ok rs ->
  Forall2 (fun ent r => parse_ent ent = Ok r)
    (filter (fun d => tag d = "ENT") (flat_map iter (children root))) rs.
Proof. intros H. by apply for_each_Forall2 in H. Qed.

Lemma xml_one_record_per_entity_witness :
  Forall2 (fun ent r => parse_ent ent = Ok r)
    (filter (fun d => tag d = "ENT") (flat_map iter (children sample_root)))
    [ann_record].
Proof.
  apply (xml_one_record_per_entity sample_root). vm_compute. reflexivity.
Defined.

(** The tabular parser returns one record for each row after the header
    that is not empty, in the order of the rows. *)
Theorem tsv_one_record_per_row
    (fieldnames : list string) (data : list (list string)) (rs : list record) :
  parse_tsv (fieldnames :: data) = Ok rs ->
  Forall2 (fun cells r => parse_tsv_row (dict_row fieldnames cells) = Ok r)
    (filter (fun cells => cells <> []) data) rs.
Proof.
  unfold parse_tsv, dict_reader. intros H%for_each_Forall2.
  by apply Forall2_fmap_l in H.
Qed.

Lemma tsv_one_record_per_row_witness :
  Forall2 (fun cells r => parse_tsv_row (dict_row sample_header cells) = Ok r)
    (filter (fun cells => cells <> [])
       [["Bo"; ""; "Diaz "; "N/A"; "2 Oak Ave"; "New York"; "NY"; ""; "10001"; "0001"];
        [];
        [""; ""; ""; " Acme "; "3 Pine Rd"; "San Francisco"; "CA"; "MARIN"; " 94105"; ""]])
    [bo_record; acme_record].
Proof.
  apply (tsv_one_record_per_row sample_header). vm_compute. reflexivity.
Defined.
